(** * cron8n: a shallow embedding of the slug, discovery, registry, manifest,
      remote-client and cron-validation code, with the properties the
      specification states about them.

    Strings are JavaScript strings restricted to code units below 256
    (Latin-1), so that [ascii] is one code unit.  The string primitives the
    sources use ([toLowerCase], [trim], [includes], the regular expressions
    of [src/utils/slug.ts]) are written out on that alphabet. *)

From Stdlib Require Import String Ascii List ZArith Lia Bool Arith.
From Stdlib Require Import Numbers.DecimalString Sorting.Sorted.
Import ListNotations.
Open Scope string_scope.
Open Scope list_scope.
Open Scope nat_scope.

(* ================================================================== *)
(** ** JavaScript string primitives *)
(* ================================================================== *)

Module Js.

Definition code (c : ascii) : nat := nat_of_ascii c.

Definition between (lo hi : nat) (c : ascii) : bool :=
  (lo <=? code c) && (code c <=? hi).

(** [A-Z] *)
Definition isAsciiUpper (c : ascii) : bool := between 65 90 c.
(** [a-z] *)
Definition isAsciiLower (c : ascii) : bool := between 97 122 c.
(** [0-9] *)
Definition isDigit (c : ascii) : bool := between 48 57 c.

(** The Latin-1 capitals U+00C0..U+00DE, U+00D7 (the multiplication sign)
    apart: the only other code units below 256 that [toLowerCase] moves. *)
Definition isLatin1Upper (c : ascii) : bool :=
  between 192 222 c && negb (code c =? 215).

Definition toLowerChar (c : ascii) : ascii :=
  if isAsciiUpper c || isLatin1Upper c then ascii_of_nat (code c + 32) else c.

(** [String.prototype.toLowerCase] *)
Fixpoint toLowerCase (s : string) : string :=
  match s with
  | EmptyString => EmptyString
  | String c r => String (toLowerChar c) (toLowerCase r)
  end.

(** The regular-expression class [\s] (white space and line terminators)
    below 256: TAB, LF, VT, FF, CR, SP, NBSP.  [trim] strips the same set. *)
Definition isSpace (c : ascii) : bool :=
  between 9 13 c || (code c =? 32) || (code c =? 160).

(** The regular-expression class [\w]: [A-Za-z0-9_]. *)
Definition isWord (c : ascii) : bool :=
  isAsciiUpper c || isAsciiLower c || isDigit c || (code c =? 95).

Definition isHyphen (c : ascii) : bool := code c =? 45.

Fixpoint filter (p : ascii -> bool) (s : string) : string :=
  match s with
  | EmptyString => EmptyString
  | String c r => if p c then String c (filter p r) else filter p r
  end.

Fixpoint dropWhile (p : ascii -> bool) (s : string) : string :=
  match s with
  | EmptyString => EmptyString
  | String c r => if p c then dropWhile p r else s
  end.

Definition isEmpty (s : string) : bool :=
  match s with EmptyString => true | _ => false end.

Fixpoint dropWhileEnd (p : ascii -> bool) (s : string) : string :=
  match s with
  | EmptyString => EmptyString
  | String c r =>
      let r' := dropWhileEnd p r in
      if p c && isEmpty r' then EmptyString else String c r'
  end.

(** [String.prototype.trim] *)
Definition trim (s : string) : string :=
  dropWhileEnd isSpace (dropWhile isSpace s).

(** [s.replace(/[p]+/g, '-')]: every maximal run of characters of the class
    [p] becomes one hyphen.  [inRun] says that the previous character
    belonged to the run being replaced. *)
Fixpoint replaceRuns (p : ascii -> bool) (inRun : bool) (s : string) : string :=
  match s with
  | EmptyString => EmptyString
  | String c r =>
      if p c
      then if inRun then replaceRuns p true r
           else String "-"%char (replaceRuns p true r)
      else String c (replaceRuns p false r)
  end.

Fixpoint existsb (p : ascii -> bool) (s : string) : bool :=
  match s with
  | EmptyString => false
  | String c r => p c || existsb p r
  end.

Fixpoint forallb (p : ascii -> bool) (s : string) : bool :=
  match s with
  | EmptyString => true
  | String c r => p c && forallb p r
  end.

(** [hay.startsWith(needle)] *)
Fixpoint startsWith (needle hay : string) : bool :=
  match needle, hay with
  | EmptyString, _ => true
  | String a n', String b h' => Ascii.eqb a b && startsWith n' h'
  | String _ _, EmptyString => false
  end.

(** [hay.includes(needle)] *)
Fixpoint includes (hay needle : string) : bool :=
  startsWith needle hay ||
  match hay with
  | EmptyString => false
  | String _ h' => includes h' needle
  end.

(** JavaScript truthiness of a string that may be [undefined] or [null]. *)
Definition truthyStr (s : option string) : bool :=
  match s with
  | Some (String _ _) => true
  | _ => false
  end.

(** JavaScript truthiness of an integral number that may be [undefined]. *)
Definition truthyNum (n : option Z) : bool :=
  match n with
  | Some z => negb (Z.eqb z 0)
  | None => false
  end.

End Js.

(* ================================================================== *)
(** ** src/utils/slug.ts *)
(* ================================================================== *)

Module Slug.

(** [/[^\w\s-]/g]: the characters the first [replace] keeps. *)
Definition keptChar (c : ascii) : bool :=
  Js.isWord c || Js.isSpace c || Js.isHyphen c.

(** [/[\s_]/] *)
Definition isSpaceOrUnderscore (c : ascii) : bool :=
  Js.isSpace c || (Js.code c =? 95).

Definition createSlug (input : string) : string :=
  let s1 := Js.trim (Js.toLowerCase input) in
  let s2 := Js.filter keptChar s1 in                       (* /[^\w\s-]/g -> '' *)
  let s3 := Js.replaceRuns isSpaceOrUnderscore false s2 in (* /[\s_]+/g -> '-' *)
  let s4 := Js.replaceRuns Js.isHyphen false s3 in         (* /-+/g -> '-' *)
  Js.dropWhileEnd Js.isHyphen (Js.dropWhile Js.isHyphen s4). (* /^-+|-+$/g -> '' *)

(** [a-z0-9] *)
Definition isLowerAlnum (c : ascii) : bool :=
  Js.isAsciiLower c || Js.isDigit c.

(** [A-Za-z0-9] *)
Definition isAlnum (c : ascii) : bool :=
  Js.isAsciiUpper c || Js.isAsciiLower c || Js.isDigit c.

(** The matcher of [/^[a-z0-9]+(?:-[a-z0-9]+)*$/].  [inGroup] says that at
    least one character of the current group has been read. *)
Fixpoint matchSlug (inGroup : bool) (s : string) : bool :=
  match s with
  | EmptyString => inGroup
  | String c r =>
      if isLowerAlnum c then matchSlug true r
      else if Js.isHyphen c && inGroup then matchSlug false r
      else false
  end.

Definition isValidSlug (slug : string) : bool := matchSlug false slug.

(** nanoid's URL-safe alphabet (the external [nanoid] package): 64 symbols,
    [A-Za-z0-9_-]. *)
Definition urlAlphabet : string :=
  "useandom-26T198340PX75pxJACKVERYMINDBUSHWOLF_GQZbfghjklqvwyzrict".

(** [nanoid(size)] of the external package, on the [size] random bytes it
    draws from the platform's generator: each byte selects
    [urlAlphabet[byte & 63]]. *)
Definition nanoidChar (byte : Z) : ascii :=
  match String.get (Z.to_nat (Z.land byte 63)) urlAlphabet with
  | Some c => c
  | None => "-"%char
  end.

Fixpoint nanoid (size : nat) (random : nat -> Z) : string :=
  match size with
  | O => EmptyString
  | S n => String (nanoidChar (random 0)) (nanoid n (fun i => random (S i)))
  end.

(** [createUniqueSlug]; [random] holds the bytes the generator hands out,
    of which [nanoid(6)] consumes six. *)
Definition createUniqueSlug (input : string) (random : nat -> Z) : string :=
  let baseSlug := createSlug input in
  let uniqueId := nanoid 6 random in
  (baseSlug ++ "-" ++ uniqueId)%string.

(** [generateSlug(length)] lower-cases the identifier. *)
Definition generateSlug (length : nat) (random : nat -> Z) : string :=
  Js.toLowerCase (nanoid length random).

End Slug.

(* ================================================================== *)
(** ** JSON documents and the remote server's resources *)
(* ================================================================== *)

Set Warnings "-register-all".

(** A parsed JSON document.  Numbers are the integral ones; an object keeps
    its members in order. *)
Inductive Json : Type :=
| JNull
| JBool (b : bool)
| JNum (n : Z)
| JStr (s : string)
| JArr (items : list Json)
| JObj (members : list (string * Json)).

Module Api.

(** [N8nTagSchema] *)
Record N8nTag := {
  tag_id : string;
  tag_name : string;
  tag_createdAt : option string;
  tag_updatedAt : option string
}.

(** [N8nNodeSchema]; the field [type] is [type_] here. *)
Record N8nNode := {
  node_id : option string;
  node_name : string;
  type_ : string;
  typeVersion : option Z;
  position : list Z;
  parameters : option Json;
  credentials : option Json
}.

(** [N8nWorkflowSchema] *)
Record N8nWorkflow := {
  wf_id : option string;
  wf_name : string;
  active : option bool;
  nodes : list N8nNode;
  connections : Json;
  settings : option Json;
  staticData : option Json;
  tags : option (list N8nTag);
  wf_createdAt : option string;
  wf_updatedAt : option string
}.

End Api.

(* ================================================================== *)
(** ** src/workflows/discover.ts *)
(* ================================================================== *)

Module Discover.

Definition CRON_NODE_TYPES : list string :=
  [ "n8n-nodes-base.cron";
    "n8n-nodes-base.scheduleTrigger";
    "n8n-nodes-base.schedule" ].

Definition isCronNode (node : Api.N8nNode) : bool :=
  List.existsb
    (fun type =>
       Js.includes (Js.toLowerCase (Api.type_ node)) (Js.toLowerCase type) ||
       Js.includes (Js.toLowerCase type) (Js.toLowerCase (Api.type_ node)))
    CRON_NODE_TYPES.

End Discover.

(* ================================================================== *)
(** ** src/config/registry.ts *)
(* ================================================================== *)

Module Registry.

(** [RegistryEntrySchema] *)
Record RegistryEntry := {
  slug : string;
  projectPath : string;
  manifestPath : string;
  workflowId : option string;
  lastSyncedAt : option string
}.

(** [Omit<RegistryEntry, 'lastSyncedAt'>], the argument of
    [upsertRegistryEntry]. *)
Record NewEntry := {
  new_slug : string;
  new_projectPath : string;
  new_manifestPath : string;
  new_workflowId : option string
}.

(** [RegistrySchema] *)
Record Registry := { workflows : list RegistryEntry }.

(** What [~/.cron8n/registry.json] holds: nothing, a document that does not
    parse or does not fit [RegistrySchema], or a registry. *)
Inductive RegistryFile :=
| Missing
| Corrupt
| Stored (registry : Registry).

Definition loadRegistry (file : RegistryFile) : Registry :=
  match file with
  | Missing => {| workflows := [] |}
  | Corrupt => {| workflows := [] |}       (* corrupted: start fresh *)
  | Stored registry => registry
  end.

Definition saveRegistry (registry : Registry) : RegistryFile := Stored registry.

(** [w => w.slug === slug && w.projectPath === projectPath] *)
Definition hasIdentity (slug' projectPath' : string) (w : RegistryEntry) : bool :=
  String.eqb (slug w) slug' && String.eqb (projectPath w) projectPath'.

(** [Array.prototype.findIndex]: the first index whose element satisfies
    the predicate, [-1] when there is none. *)
Fixpoint findIndex {A} (p : A -> bool) (l : list A) : Z :=
  match l with
  | [] => (-1)%Z
  | x :: r =>
      if p x then 0%Z
      else let i := findIndex p r in
           if (i <? 0)%Z then (-1)%Z else (i + 1)%Z
  end.

(** [array[index] = value] for an index inside the array. *)
Fixpoint setAt {A} (index : nat) (value : A) (l : list A) : list A :=
  match l, index with
  | [], _ => []
  | _ :: r, O => value :: r
  | x :: r, S i => x :: setAt i value r
  end.

(** [upsertRegistryEntry]; [now] is what [getISOTimestamp()] returns. *)
Definition upsertRegistryEntry (entry : NewEntry) (now : string)
  (file : RegistryFile) : RegistryFile :=
  let registry := loadRegistry file in
  let existingIndex :=
    findIndex (hasIdentity (new_slug entry) (new_projectPath entry))
              (workflows registry) in
  let newEntry :=
    {| slug := new_slug entry;
       projectPath := new_projectPath entry;
       manifestPath := new_manifestPath entry;
       workflowId := new_workflowId entry;
       lastSyncedAt := Some now |} in
  if (0 <=? existingIndex)%Z
  then saveRegistry
         {| workflows := setAt (Z.to_nat existingIndex) newEntry (workflows registry) |}
  else saveRegistry {| workflows := workflows registry ++ [newEntry] |}.

(** [find] hands out the first matching element itself, and
    [updateWorkflowId] assigns to its fields: the array then holds the
    changed element at the same place.  [None] when nothing matches. *)
Fixpoint updateFirst {A} (p : A -> bool) (f : A -> A) (l : list A) : option (list A) :=
  match l with
  | [] => None
  | x :: r =>
      if p x then Some (f x :: r)
      else match updateFirst p f r with
           | Some r' => Some (x :: r')
           | None => None
           end
  end.

Definition updateWorkflowId (slug' projectPath' workflowId' now : string)
  (file : RegistryFile) : RegistryFile :=
  let registry := loadRegistry file in
  match updateFirst (hasIdentity slug' projectPath')
          (fun entry =>
             {| slug := slug entry;
                projectPath := projectPath entry;
                manifestPath := manifestPath entry;
                workflowId := Some workflowId';
                lastSyncedAt := Some now |})
          (workflows registry) with
  | Some workflows' => saveRegistry {| workflows := workflows' |}
  | None => file
  end.

(** [removeRegistryEntry]: the returned boolean and the file afterwards. *)
Definition removeRegistryEntry (slug' projectPath' : string)
  (file : RegistryFile) : bool * RegistryFile :=
  let registry := loadRegistry file in
  let initialLength := List.length (workflows registry) in
  let remaining :=
    List.filter (fun w => negb (hasIdentity slug' projectPath' w)) (workflows registry) in
  if List.length remaining <? initialLength
  then (true, saveRegistry {| workflows := remaining |})
  else (false, file).

Definition getAllEntries (file : RegistryFile) : list RegistryEntry :=
  workflows (loadRegistry file).

Definition getEntry (slug' projectPath' : string) (file : RegistryFile)
  : option RegistryEntry :=
  List.find (hasIdentity slug' projectPath') (workflows (loadRegistry file)).

(** [getEntriesByProject] *)
Definition getEntriesByProject (projectPath' : string) (file : RegistryFile)
  : list RegistryEntry :=
  List.filter (fun w => String.eqb (projectPath w) projectPath')
    (workflows (loadRegistry file)).

(** [w.workflowId === workflowId], the one side possibly [undefined]. *)
Definition hasWorkflowId (workflowId' : string) (w : RegistryEntry) : bool :=
  match workflowId w with
  | Some id => String.eqb id workflowId'
  | None => false
  end.

(** [getEntryByWorkflowId] *)
Definition getEntryByWorkflowId (workflowId' : string) (file : RegistryFile)
  : option RegistryEntry :=
  List.find (hasWorkflowId workflowId') (workflows (loadRegistry file)).

End Registry.

(* ================================================================== *)
(** ** Thrown values and the file system (src/utils/errors.ts, src/utils/fs.ts) *)
(* ================================================================== *)

(** What a [throw] carries. *)
Inductive Thrown :=
| FileError (message : string)
| ApiError (message : string) (statusCode : option Z)
| ValidationError (message : string) (hint : option string)
| ZodError                       (* a schema's [parse] rejected the value *)
| OtherError (message : string)  (* any other [Error] *)
| NonError.                      (* a thrown value that is not an [Error] *)

(** The result of a call that may throw. *)
Inductive Result (A : Type) :=
| Ok (value : A)
| Throw (error : Thrown).
Arguments Ok {A} value.
Arguments Throw {A} error.

Module Fs.

(** A file holds a JSON document or text that [JSON.parse] rejects.  A
    document stands for its text: [writeJson] stores the document and
    [readJson] gives it back. *)
Inductive FileContent :=
| JsonDoc (document : Json)
| NotJson.

Definition FileSystem := string -> option FileContent.

Definition readJson (filePath : string) (fs : FileSystem) : Result Json :=
  match fs filePath with
  | None => Throw (FileError ("File not found: " ++ filePath))
  | Some NotJson => Throw (FileError ("Invalid JSON in file: " ++ filePath))
  | Some (JsonDoc document) => Ok document
  end.

Definition writeJson (filePath : string) (data : Json) (fs : FileSystem) : FileSystem :=
  fun path => if String.eqb path filePath then Some (JsonDoc data) else fs path.

End Fs.

(* ================================================================== *)
(** ** src/workflows/manifest.ts *)
(* ================================================================== *)

Module Manifest.

(** [ManifestSchema] *)
Record Manifest := {
  slug : string;
  name : string;
  createdAt : string;
  template : string;
  cronExpression : string;
  timezone : string;
  tags : list string;
  lastDeployedWorkflowId : option string;
  lastDeployedAt : option string
}.

(** The member of an object with the given key. *)
Fixpoint member (key : string) (members : list (string * Json)) : option Json :=
  match members with
  | [] => None
  | (k, v) :: r => if String.eqb k key then Some v else member key r
  end.

(** [z.string()] on a member *)
Definition parseString (j : option Json) : option string :=
  match j with
  | Some (JStr s) => Some s
  | _ => None
  end.

(** [z.string().optional()] on a member: absent is fine, anything else than
    a string is rejected. *)
Definition parseOptionalString (j : option Json) : option (option string) :=
  match j with
  | None => Some None
  | Some (JStr s) => Some (Some s)
  | Some _ => None
  end.

Fixpoint parseStrings (items : list Json) : option (list string) :=
  match items with
  | [] => Some []
  | JStr s :: r =>
      match parseStrings r with
      | Some l => Some (s :: l)
      | None => None
      end
  | _ :: _ => None
  end.

(** [z.array(z.string())] on a member *)
Definition parseStringArray (j : option Json) : option (list string) :=
  match j with
  | Some (JArr items) => parseStrings items
  | _ => None
  end.

(** [ManifestSchema.parse]: the members the schema names are checked and
    kept, every other member of the document is dropped. *)
Definition parseManifest (data : Json) : Result Manifest :=
  match data with
  | JObj o =>
      match parseString (member "slug" o), parseString (member "name" o),
            parseString (member "createdAt" o), parseString (member "template" o),
            parseString (member "cronExpression" o), parseString (member "timezone" o),
            parseStringArray (member "tags" o),
            parseOptionalString (member "lastDeployedWorkflowId" o),
            parseOptionalString (member "lastDeployedAt" o) with
      | Some slug', Some name', Some createdAt', Some template',
        Some cron', Some tz', Some tags', Some id', Some at' =>
          Ok {| slug := slug'; name := name'; createdAt := createdAt';
                template := template'; cronExpression := cron'; timezone := tz';
                tags := tags'; lastDeployedWorkflowId := id';
                lastDeployedAt := at' |}
      | _, _, _, _, _, _, _, _, _ => Throw ZodError
      end
  | _ => Throw ZodError
  end.

Definition optionalMember (key : string) (value : option string) : list (string * Json) :=
  match value with
  | Some s => [(key, JStr s)]
  | None => []                        (* [undefined] is not serialised *)
  end.

(** The document [JSON.stringify(manifest)] writes: the manifest's own
    properties. *)
Definition toJson (m : Manifest) : Json :=
  JObj ([ ("slug", JStr (slug m));
          ("name", JStr (name m));
          ("createdAt", JStr (createdAt m));
          ("template", JStr (template m));
          ("cronExpression", JStr (cronExpression m));
          ("timezone", JStr (timezone m));
          ("tags", JArr (List.map JStr (tags m))) ]
        ++ optionalMember "lastDeployedWorkflowId" (lastDeployedWorkflowId m)
        ++ optionalMember "lastDeployedAt" (lastDeployedAt m)).

Definition createTags (slug' : string) : list string :=
  [ "managed-by:cron8n"; ("cron8n:" ++ slug')%string ].

(** [createManifest]; [now] is what [getISOTimestamp()] returns. *)
Definition createManifest (slug' name' template' cronExpression' timezone' now : string)
  : Manifest :=
  {| slug := slug'; name := name'; createdAt := now; template := template';
     cronExpression := cronExpression'; timezone := timezone';
     tags := createTags slug';
     lastDeployedWorkflowId := None; lastDeployedAt := None |}.

Section Paths.
(** [join] of the external [pathe] package, and the working directory. *)
Variable join : string -> string -> string.
Variable cwd : string.

Definition getWorkflowsDir (basePath : option string) : string :=
  join (match basePath with Some b => b | None => cwd end) "workflows".

Definition getManifestPath (slug' : string) (basePath : option string) : string :=
  join (getWorkflowsDir basePath) (slug' ++ ".cron8n.json").

Definition loadManifest (slug' : string) (basePath : option string)
  (fs : Fs.FileSystem) : Result Manifest :=
  match Fs.readJson (getManifestPath slug' basePath) fs with
  | Ok data => parseManifest data
  | Throw e => Throw e
  end.

Definition saveManifest (manifest : Manifest) (basePath : option string)
  (fs : Fs.FileSystem) : Fs.FileSystem :=
  Fs.writeJson (getManifestPath (slug manifest) basePath) (toJson manifest) fs.

(** [updateManifestDeployment]: the manifest returned (or what was thrown)
    and the file system afterwards. *)
Definition updateManifestDeployment (slug' workflowId : string)
  (basePath : option string) (now : string) (fs : Fs.FileSystem)
  : Result Manifest * Fs.FileSystem :=
  match loadManifest slug' basePath fs with
  | Throw e => (Throw e, fs)
  | Ok manifest =>
      let manifest :=
        {| slug := slug manifest; name := name manifest;
           createdAt := createdAt manifest; template := template manifest;
           cronExpression := cronExpression manifest; timezone := timezone manifest;
           tags := tags manifest;
           lastDeployedWorkflowId := Some workflowId;
           lastDeployedAt := Some now |} in
      (Ok manifest, saveManifest manifest basePath fs)
  end.
(** [manifestExists] *)
Definition manifestExists (slug' : string) (basePath : option string)
  (fs : Fs.FileSystem) : bool :=
  match fs (getManifestPath slug' basePath) with
  | Some _ => true
  | None => false
  end.

(** The [for ... of] loop of [loadAllManifests] over the slugs
    [listManifests] found: a manifest that does not load is skipped. *)
Fixpoint loadEach (slugs : list string) (basePath : option string)
  (fs : Fs.FileSystem) : list Manifest :=
  match slugs with
  | [] => []
  | slug' :: rest =>
      match loadManifest slug' basePath fs with
      | Ok manifest => manifest :: loadEach rest basePath fs
      | Throw _ => loadEach rest basePath fs
      end
  end.
End Paths.

End Manifest.

(* ================================================================== *)
(** ** src/ui/server.ts: the manifest update of the deploy route *)
(* ================================================================== *)

Module UiServer.
Import Manifest.

(** [JSON.stringify] of an object that got one more own property after its
    schema's. *)
Definition withMember (key : string) (value : Json) (document : Json) : Json :=
  match document with
  | JObj members => JObj (members ++ [(key, value)])
  | other => other
  end.

(** The end of [POST /api/workflows/:slug/deploy]:
    [manifest.lastDeployedWorkflowId = deployedWorkflow.id],
    [manifest.lastDeployedAt = new Date().toISOString()],
    [manifest.updatedAt = new Date().toISOString()], [saveManifest].  The
    document it writes, for the loaded [manifest]. *)
Definition deployedDocument (manifest : Manifest) (deployedId : option string)
  (now now' : string) : Json :=
  withMember "updatedAt" (JStr now')
    (toJson {| slug := slug manifest; name := name manifest;
               createdAt := createdAt manifest; template := template manifest;
               cronExpression := cronExpression manifest;
               timezone := timezone manifest; tags := tags manifest;
               lastDeployedWorkflowId := deployedId;
               lastDeployedAt := Some now |}).

End UiServer.

(* ================================================================== *)
(** ** src/api/n8nClient.ts *)
(* ================================================================== *)

Module Client.
Import Api.

(** The HTTP requests the client sends under [/api/v1]. *)
Inductive Request :=
| GetWorkflows (query : list (string * string))     (* GET /workflows?query *)
| GetWorkflow (id : string)                         (* GET /workflows/:id *)
| GetTags                                           (* GET /tags *)
| PostTag (name : string)                           (* POST /tags *)
| PutWorkflowTags (workflowId : string) (tagIds : list string).
                                                    (* PUT /workflows/:id/tags *)

(** The parsed body of a response, by the schema it fits. *)
Inductive Body :=
| WorkflowList (data : list N8nWorkflow) (nextCursor : option string)
| Workflow (workflow : N8nWorkflow)
| TagList (data : list N8nTag)
| Tag (tag : N8nTag)
| OtherBody.

(** What [this.request] ends with: the parsed body, or an [ApiError] (a
    status of 400 or more, or a failure of the transport). *)
Inductive Reply :=
| Success (body : Body)
| Failure (message : string) (statusCode : option Z).

Definition Exchange : Type := Request * Reply.

Inductive Outcome (A : Type) :=
| Done (value : A)
| Failed (error : Thrown)
| OutOfFuel.
Arguments Done {A} value.
Arguments Failed {A} error.
Arguments OutOfFuel {A}.

(** [ListWorkflowsOptions] *)
Record ListWorkflowsOptions := {
  opt_active : option bool;
  opt_tags : option (list string);
  limit : option Z;
  cursor : option string
}.

(** [String(n)] for an integral number. *)
Definition stringOfNumber (n : Z) : string := NilZero.string_of_int (Z.to_int n).

(** [String(b)] *)
Definition stringOfBool (b : bool) : string := if b then "true" else "false".

(** The [URLSearchParams] of one page request. *)
Definition query (options : ListWorkflowsOptions) (cursor' : option string)
  : list (string * string) :=
  (if Js.truthyNum (limit options)
   then match limit options with
        | Some n => [("limit", stringOfNumber n)]
        | None => []
        end
   else [])
  ++ (match cursor' with
      | Some c => if Js.truthyStr cursor' then [("cursor", c)] else []
      | None => []
      end)
  ++ (match opt_active options with
      | Some b => [("active", stringOfBool b)]
      | None => []
      end)
  ++ (match opt_tags options with
      | Some ts => List.map (fun tag => ("tags", tag)) ts
      | None => []
      end).

(** [[...new Set(ids)]]: the first occurrence of every element, in order. *)
Fixpoint dedupeFrom (seen : list string) (ids : list string) : list string :=
  match ids with
  | [] => []
  | x :: r =>
      if List.existsb (String.eqb x) seen then dedupeFrom seen r
      else x :: dedupeFrom (x :: seen) r
  end.

Definition dedupe (ids : list string) : list string := dedupeFrom [] ids.

Section Server.
(** The remote server: any state, and how it answers a request. *)
Variable ServerState : Type.
Variable serve : Request -> ServerState -> Reply * ServerState.

(** A client call runs against the server's state and yields its outcome,
    the server's state afterwards and the exchanges it made, in order. *)
Definition Http (A : Type) : Type :=
  ServerState -> Outcome A * ServerState * list Exchange.

Definition ret {A} (a : A) : Http A := fun st => (Done a, st, []).

Definition throw {A} (e : Thrown) : Http A := fun st => (Failed e, st, []).

Definition bind {A B} (m : Http A) (k : A -> Http B) : Http B :=
  fun st =>
    match m st with
    | (Done a, st1, log1) =>
        match k a st1 with
        | (out, st2, log2) => (out, st2, log1 ++ log2)
        end
    | (Failed e, st1, log1) => (Failed e, st1, log1)
    | (OutOfFuel, st1, log1) => (OutOfFuel, st1, log1)
    end.

Notation "x <- m ;; k" := (bind m (fun x => k))
  (at level 61, m at next level, right associativity).

(** [this.request(method, path, body)] *)
Definition request (r : Request) : Http Body :=
  fun st =>
    match serve r st with
    | (Success body, st') => (Done body, st', [(r, Success body)])
    | (Failure message status, st') =>
        (Failed (ApiError message status), st', [(r, Failure message status)])
    end.

(** The do-while loop of [listWorkflows], at most [fuel] rounds of it. *)
Fixpoint listWorkflowsLoop (fuel : nat) (options : ListWorkflowsOptions)
  (cursor' : option string) (workflows : list N8nWorkflow)
  : Http (list N8nWorkflow) :=
  match fuel with
  | O => fun st => (OutOfFuel, st, [])
  | S fuel' =>
      response <- request (GetWorkflows (query options cursor')) ;;
      match response with
      | WorkflowList data nextCursor =>          (* WorkflowListResponseSchema.parse *)
          let workflows := workflows ++ data in
          let cursor' := nextCursor in
          if Js.truthyNum (limit options) then ret workflows   (* don't paginate *)
          else if Js.truthyStr cursor'
               then listWorkflowsLoop fuel' options cursor' workflows
               else ret workflows
      | _ => throw ZodError
      end
  end.

Definition listWorkflows (fuel : nat) (options : ListWorkflowsOptions)
  : Http (list N8nWorkflow) :=
  listWorkflowsLoop fuel options (cursor options) [].

Definition getWorkflow (id : string) : Http N8nWorkflow :=
  response <- request (GetWorkflow id) ;;
  match response with
  | Workflow w => ret w
  | _ => throw ZodError
  end.

Definition listTags : Http (list N8nTag) :=
  response <- request GetTags ;;
  match response with
  | TagList data => ret data
  | _ => throw ZodError
  end.

Definition createTag (name : string) : Http N8nTag :=
  response <- request (PostTag name) ;;
  match response with
  | Tag t => ret t
  | _ => throw ZodError
  end.

Definition getOrCreateTag (name : string) : Http N8nTag :=
  tags <- listTags ;;
  match List.find (fun t => String.eqb (tag_name t) name) tags with
  | Some existingTag => ret existingTag
  | None => createTag name
  end.

Definition setWorkflowTags (workflowId : string) (tagIds : list string) : Http unit :=
  _ <- request (PutWorkflowTags workflowId tagIds) ;;
  ret tt.

(** The [for ... of] loop of [addTagsToWorkflow]; [tagIds] is the array
    being filled. *)
Fixpoint resolveTags (tagNames : list string) (tagIds : list string)
  : Http (list string) :=
  match tagNames with
  | [] => ret tagIds
  | name :: rest =>
      tag <- getOrCreateTag name ;;
      resolveTags rest (tagIds ++ [tag_id tag])
  end.

Definition existingTagIds (workflow : N8nWorkflow) : list string :=
  match tags workflow with
  | Some ts => List.map tag_id ts
  | None => []
  end.

Definition addTagsToWorkflow (workflowId : string) (tagNames : list string)
  : Http unit :=
  tagIds <- resolveTags tagNames [] ;;
  workflow <- getWorkflow workflowId ;;
  let allTagIds := dedupe (existingTagIds workflow ++ tagIds) in
  setWorkflowTags workflowId allTagIds.

(** [testConnection]: the request for [/workflows?limit=1], any failure of
    which is caught. *)
Definition testConnection : Http bool :=
  fun st =>
    match request (GetWorkflows [("limit", "1")]) st with
    | (Done _, st', log) => (Done true, st', log)
    | (_, st', log) => (Done false, st', log)
    end.

End Server.

(** The server of the test-suite: it answers the requests with the replies
    queued for it, whatever is asked. *)
Definition scripted (r : Request) (queue : list Reply) : Reply * list Reply :=
  match queue with
  | reply :: rest => (reply, rest)
  | [] => (Failure "Request failed" None, [])
  end.

End Client.

(* ================================================================== *)
(** ** src/utils/time.ts *)
(* ================================================================== *)

Module Cron.

(** What the cron-parser library can raise: an [Error] with its message, or
    some other value. *)
Inductive Raised :=
| RaisedError (message : string)
| RaisedOther.

(** [CronInfo]; a [Date] is its number of milliseconds since the epoch. *)
Record CronInfo := {
  expression : string;
  isValid : bool;
  nextRuns : list Z;
  error : option string
}.

(** [error instanceof Error ? error.message : 'Invalid cron expression'] *)
Definition errorText (e : Raised) : string :=
  match e with
  | RaisedError message => message
  | RaisedOther => "Invalid cron expression"
  end.

Definition invalid (expression' : string) (e : Raised) : CronInfo :=
  {| expression := expression'; isValid := false; nextRuns := [];
     error := Some (errorText e) |}.

Section CronParser.
(** The external cron-parser package: the iterator [parseExpression] builds
    from an expression, a time zone and the current date, and [next], which
    yields the next occurrence and the advanced iterator, or raises. *)
Variable Interval : Type.
Variable parseExpression : string -> string -> Z -> Interval + Raised.
Variable next : Interval -> (Z * Interval) + Raised.

(** The [for] loop of [parseCron]: [count] more calls of [interval.next()],
    pushed onto [nextRuns]. *)
Fixpoint collect (count : nat) (interval : Interval) (nextRuns' : list Z)
  : list Z + Raised :=
  match count with
  | O => inl nextRuns'
  | S count' =>
      match next interval with
      | inl (date, interval') => collect count' interval' (nextRuns' ++ [date])
      | inr e => inr e
      end
  end.

(** [parseCron(expression, timezone = 'Europe/Istanbul', count = 5)]; [now]
    is [new Date()].  The [try]/[catch] turns whatever is raised into an
    invalid result. *)
Definition parseCron (expression' : string) (timezone : option string)
  (count : option Z) (now : Z) : CronInfo :=
  let timezone := match timezone with Some tz => tz | None => "Europe/Istanbul" end in
  let count := match count with Some n => n | None => 5%Z end in
  match parseExpression expression' timezone now with
  | inr e => invalid expression' e
  | inl interval =>
      match collect (Z.to_nat count) interval [] with
      | inl runs =>
          {| expression := expression'; isValid := true; nextRuns := runs;
             error := None |}
      | inr e => invalid expression' e
      end
  end.
(** [validateCron(expression, timezone = 'Europe/Istanbul')]: nothing, or the
    [ValidationError] thrown. *)
Definition validateCron (expression' : string) (timezone : option string) (now : Z)
  : Result unit :=
  let timezone := match timezone with Some tz => tz | None => "Europe/Istanbul" end in
  let result := parseCron expression' (Some timezone) None now in
  if negb (isValid result)
  then Throw (ValidationError ("Invalid cron expression: " ++ expression')
                              (error result))
  else Ok tt.
End CronParser.

End Cron.

(* ================================================================== *)
(** ** More JavaScript primitives: strings and JSON values *)
(* ================================================================== *)

Module JsText.

Fixpoint drop (n : nat) (s : string) : string :=
  match n, s with
  | O, _ => s
  | S n', String _ r => drop n' r
  | S _, EmptyString => EmptyString
  end.

(** [s.replace(pattern, replacement)] for a string pattern: the first
    occurrence only.  (The replacements the sources pass hold no [$].) *)
Fixpoint replaceFirst (pattern replacement s : string) : string :=
  match s with
  | EmptyString =>
      if Js.startsWith pattern EmptyString then replacement else EmptyString
  | String c r =>
      if Js.startsWith pattern s
      then (replacement ++ drop (String.length pattern) s)%string
      else String c (replaceFirst pattern replacement r)
  end.

(** [s.endsWith(suffix)] *)
Fixpoint endsWith (suffix s : string) : bool :=
  String.eqb suffix s ||
  match s with
  | EmptyString => false
  | String _ r => endsWith suffix r
  end.

End JsText.

Module JsValue.

(** Truthiness of a value that came out of [JSON.parse]. *)
Definition truthy (v : Json) : bool :=
  match v with
  | JNull => false
  | JBool b => b
  | JNum n => negb (Z.eqb n 0)
  | JStr s => negb (Js.isEmpty s)
  | JArr _ => true
  | JObj _ => true
  end.

(** Truthiness of a value that may be [undefined]. *)
Definition truthyOpt (v : option Json) : bool :=
  match v with
  | Some x => truthy x
  | None => false
  end.

(** [typeof v === 'object'] *)
Definition isObject (v : option Json) : bool :=
  match v with
  | Some JNull | Some (JArr _) | Some (JObj _) => true
  | _ => false
  end.

(** [typeof v === 'string'] *)
Definition isString (v : option Json) : bool :=
  match v with
  | Some (JStr _) => true
  | _ => false
  end.

(** [v === text] *)
Definition isText (text : string) (v : option Json) : bool :=
  match v with
  | Some (JStr s) => String.eqb s text
  | _ => false
  end.

Fixpoint member (key : string) (members : list (string * Json)) : option Json :=
  match members with
  | [] => None
  | (k, v) :: r => if String.eqb k key then Some v else member key r
  end.

(** [v[key]] for the property names the sources read ([rule], [interval],
    [field], ...): only an object has them; a string, an array, a number or a
    boolean gives [undefined]. *)
Definition prop (key : string) (v : Json) : option Json :=
  match v with
  | JObj members => member key members
  | _ => None
  end.

(** [v?.key]: [undefined] for [undefined] and [null]. *)
Definition optProp (key : string) (v : option Json) : option Json :=
  match v with
  | None | Some JNull => None
  | Some x => prop key x
  end.

(** [v?.[0]]: the first element of an array, the first character of a
    string, the member [0] of an object. *)
Definition optFirst (v : option Json) : option Json :=
  match v with
  | Some (JArr (x :: _)) => Some x
  | Some (JStr (String c _)) => Some (JStr (String c EmptyString))
  | Some (JObj members) => member "0" members
  | _ => None
  end.

End JsValue.

(* ================================================================== *)
(** ** src/workflows/discover.ts: parameters, tags and grouping *)
(* ================================================================== *)

Module Discovery.
Import Api JsValue.

Definition CRON8N_MANAGED_TAG : string := "managed-by:cron8n".
Definition CRON8N_SLUG_TAG_PREFIX : string := "cron8n:".

(** [CronNodeInfo]; the two extracted values are whatever the parameters
    hold at the places read. *)
Record CronNodeInfo := {
  nodeName : string;
  nodeType : string;
  cronExpression : option Json;
  timezone : option Json
}.

(** [WorkflowCronInfo] *)
Record WorkflowCronInfo := {
  workflowId : string;
  workflowName : string;
  info_active : bool;
  cronNodes : list CronNodeInfo;
  isManaged : bool;
  managedSlug : option string;
  info_tags : list string
}.

(** The scheduleTrigger shape: [params.rule.interval[0]]. *)
Definition fromRule (params : Json) : option Json :=
  let rule := prop "rule" params in
  if truthyOpt rule && isObject rule then
    let interval := optFirst (optProp "interval" rule) in
    if isText "cronExpression" (optProp "field" interval)
       && truthyOpt (optProp "expression" interval)
    then optProp "expression" interval
    else None
  else None.

(** The trigger-times shape: [params.triggerTimes.item[0]]. *)
Definition fromTriggerTimes (params : Json) : option Json :=
  let triggerTimes := prop "triggerTimes" params in
  if truthyOpt triggerTimes && isObject triggerTimes then
    let item := optFirst (optProp "item" triggerTimes) in
    if truthyOpt (optProp "cronExpression" item)
    then optProp "cronExpression" item
    else None
  else None.

Definition extractCronExpression (node : N8nNode) : option Json :=
  match parameters node with
  | None => None
  | Some params =>
      if negb (truthy params) then None
      else
        match fromRule params with
        | Some expression => Some expression
        | None =>
            let flat := prop "cronExpression" params in
            if truthyOpt flat && isString flat then flat
            else fromTriggerTimes params
        end
  end.

Definition extractTimezone (node : N8nNode) : option Json :=
  match parameters node with
  | None => None
  | Some params =>
      if negb (truthy params) then None
      else
        let options := prop "options" params in
        let fromOptions :=
          if truthyOpt options && isObject options
          then if truthyOpt (optProp "timezone" options)
               then optProp "timezone" options else None
          else None in
        match fromOptions with
        | Some tz => Some tz
        | None =>
            let flat := prop "timezone" params in
            if truthyOpt flat && isString flat then flat else None
        end
  end.

Definition getCronNodes (workflow : N8nWorkflow) : list CronNodeInfo :=
  List.map
    (fun node =>
       {| nodeName := node_name node;
          nodeType := type_ node;
          cronExpression := extractCronExpression node;
          timezone := extractTimezone node |})
    (List.filter Discover.isCronNode (nodes workflow)).

Definition hasCronTrigger (workflow : N8nWorkflow) : bool :=
  List.existsb Discover.isCronNode (nodes workflow).

Definition isCron8nManaged (workflow : N8nWorkflow) : bool :=
  match tags workflow with
  | Some ts => List.existsb (fun tag => String.eqb (tag_name tag) CRON8N_MANAGED_TAG) ts
  | None => false
  end.

Definition getCron8nSlug (workflow : N8nWorkflow) : option string :=
  match tags workflow with
  | Some ts =>
      match List.find (fun tag => Js.startsWith CRON8N_SLUG_TAG_PREFIX (tag_name tag)) ts with
      | Some slugTag =>
          Some (JsText.replaceFirst CRON8N_SLUG_TAG_PREFIX "" (tag_name slugTag))
      | None => None
      end
  | None => None
  end.

Definition analyzeWorkflow (workflow : N8nWorkflow) : WorkflowCronInfo :=
  let cronNodes' := getCronNodes workflow in
  let isManaged' := isCron8nManaged workflow in
  let managedSlug' := if isManaged' then getCron8nSlug workflow else None in
  {| workflowId := match wf_id workflow with Some id => id | None => "" end;
     workflowName := wf_name workflow;
     info_active := match active workflow with Some a => a | None => false end;
     cronNodes := cronNodes';
     isManaged := isManaged';
     managedSlug := managedSlug';
     info_tags := match tags workflow with
                  | Some ts => List.map tag_name ts
                  | None => []
                  end |}.

Definition filterCronWorkflows (workflows : list N8nWorkflow) : list N8nWorkflow :=
  List.filter hasCronTrigger workflows.

(** [groupWorkflows]: the [managed] and the [unmanaged] group. *)
Definition groupWorkflows (workflows : list N8nWorkflow)
  : list WorkflowCronInfo * list WorkflowCronInfo :=
  let cronWorkflows := filterCronWorkflows workflows in
  let analyzed := List.map analyzeWorkflow cronWorkflows in
  (List.filter (fun w => isManaged w) analyzed,
   List.filter (fun w => negb (isManaged w)) analyzed).


End Discovery.

(* ================================================================== *)
(** ** src/workflows/templates.ts: the trigger node *)
(* ================================================================== *)

Module Templates.

(** The [parameters] of the node [createCronNode] builds. *)
Definition cronNodeParameters (cronExpression timezone : string) : Json :=
  JObj [ ("rule",
          JObj [ ("interval",
                  JArr [ JObj [ ("field", JStr "cronExpression");
                                ("expression", JStr cronExpression) ] ]) ]);
         ("options", JObj [ ("timezone", JStr timezone) ]) ].

(** The [type] of that node. *)
Definition cronNodeType : string := "n8n-nodes-base.scheduleTrigger".

End Templates.

(* ================================================================== *)
(** ** src/workflows/manifest.ts: the slugs of a directory listing *)
(* ================================================================== *)

Module Listing.

(** The end of [listManifests], on the files [listFilesByExtension] found:
    [files.filter(f => f.endsWith('.cron8n.json'))
          .map(f => f.replace('.cron8n.json', ''))]. *)
Definition manifestSlugs (files : list string) : list string :=
  List.map (fun f => JsText.replaceFirst ".cron8n.json" "" f)
    (List.filter (fun f => JsText.endsWith ".cron8n.json" f) files).

End Listing.

(* ================================================================== *)
(** ** src/config/store.ts *)
(* ================================================================== *)

Module Store.

Inductive AuthMode := apiKey | bearerToken.

(** [ConfigSchema], as a document: the three optional members. *)
Record Config := {
  baseUrl : option string;
  authMode : option AuthMode;
  secret : option string
}.

Record AuthCredentials := {
  auth_baseUrl : string;
  auth_authMode : AuthMode;
  auth_secret : string
}.

(** What [~/.cron8n/config.json] holds: nothing, a document that is not an
    object with members of these types, or such a document. *)
Inductive ConfigFile :=
| Missing
| Corrupt
| Stored (config : Config).

Definition emptyConfig : Config :=
  {| baseUrl := None; authMode := None; secret := None |}.

Section Url.
(** The check behind [z.string().url()]. *)
Variable isUrl : string -> bool.

(** [loadConfig]: a document the schema rejects counts as empty. *)
Definition loadConfig (file : ConfigFile) : Config :=
  match file with
  | Missing => emptyConfig
  | Corrupt => emptyConfig
  | Stored config =>
      match baseUrl config with
      | Some url => if isUrl url then config else emptyConfig
      | None => config
      end
  end.

Definition saveConfig (config : Config) : ConfigFile := Stored config.

Definition saveAuth (credentials : AuthCredentials) (file : ConfigFile) : ConfigFile :=
  let config := loadConfig file in
  saveConfig {| baseUrl := Some (auth_baseUrl credentials);
                authMode := Some (auth_authMode credentials);
                secret := Some (auth_secret credentials) |}.

Definition getAuth (file : ConfigFile) : option AuthCredentials :=
  let config := loadConfig file in
  match baseUrl config, authMode config, secret config with
  | Some url, Some mode, Some secret' =>
      if Js.isEmpty url || Js.isEmpty secret' then None
      else Some {| auth_baseUrl := url; auth_authMode := mode;
                   auth_secret := secret' |}
  | _, _, _ => None
  end.

Definition clearAuth (file : ConfigFile) : ConfigFile :=
  let config := loadConfig file in
  saveConfig emptyConfig.

Definition isAuthenticated (file : ConfigFile) : bool :=
  match getAuth file with
  | Some _ => true
  | None => false
  end.
End Url.

(** [getAuthHeader] *)
Definition getAuthHeader (auth : AuthCredentials) : list (string * string) :=
  match auth_authMode auth with
  | apiKey => [("X-N8N-API-KEY", auth_secret auth)]
  | bearerToken => [("Authorization", ("Bearer " ++ auth_secret auth)%string)]
  end.

End Store.

(* ================================================================== *)
(** * Properties *)
(* ================================================================== *)

(** ** Slugs *)

Section StringFacts.
Variables p q : ascii -> bool.

Lemma forallb_filter s : Js.forallb q s = true -> Js.forallb q (Js.filter p s) = true.
Proof.
  induction s as [|c r IH]; simpl; auto.
  intros H. apply andb_true_iff in H as [Hc Hr].
  destruct (p c); simpl; auto. rewrite Hc. auto.
Qed.

Lemma forallb_filter_self s : Js.forallb p (Js.filter p s) = true.
Proof.
  induction s as [|c r IH]; simpl; auto.
  destruct (p c) eqn:E; simpl; auto. rewrite E. auto.
Qed.

Lemma forallb_dropWhile s : Js.forallb q s = true -> Js.forallb q (Js.dropWhile p s) = true.
Proof.
  induction s as [|c r IH]; simpl; auto.
  intros H. destruct (p c); simpl; auto.
  apply andb_true_iff in H as [_ Hr]. auto.
Qed.

Lemma forallb_dropWhileEnd s :
  Js.forallb q s = true -> Js.forallb q (Js.dropWhileEnd p s) = true.
Proof.
  induction s as [|c r IH]; simpl; auto.
  intros H. apply andb_true_iff in H as [Hc Hr].
  destruct (p c && Js.isEmpty (Js.dropWhileEnd p r)); simpl; auto.
  rewrite Hc. auto.
Qed.

(** Dropping characters of a class [p] disjoint from [q] keeps every
    occurrence of a [q] character. *)
Hypothesis disjoint : forall c, q c = true -> p c = false.

Lemma existsb_dropWhile s :
  Js.existsb q s = true -> Js.existsb q (Js.dropWhile p s) = true.
Proof.
  induction s as [|c r IH]; simpl; auto.
  intros H. destruct (q c) eqn:E.
  - rewrite (disjoint _ E). simpl. rewrite E. reflexivity.
  - simpl in H. destruct (p c); simpl; auto. rewrite E. auto.
Qed.

Lemma existsb_nonempty s : Js.existsb q s = true -> Js.isEmpty s = false.
Proof. destruct s; simpl; congruence. Qed.

Lemma existsb_dropWhileEnd s :
  Js.existsb q s = true -> Js.existsb q (Js.dropWhileEnd p s) = true.
Proof.
  induction s as [|c r IH]; simpl; auto.
  intros H. destruct (q c) eqn:E.
  - rewrite (disjoint _ E). simpl. rewrite E. reflexivity.
  - simpl in H. specialize (IH H).
    rewrite (existsb_nonempty _ IH), andb_false_r. simpl. rewrite E. auto.
Qed.

Lemma existsb_replaceRuns b s :
  Js.existsb q s = true -> Js.existsb q (Js.replaceRuns p b s) = true.
Proof.
  revert b. induction s as [|c r IH]; simpl; auto.
  intros b H. destruct (q c) eqn:E.
  - rewrite (disjoint _ E). simpl. rewrite E. reflexivity.
  - simpl in H. destruct (p c); [destruct b|]; simpl.
    + auto.
    + rewrite orb_true_iff. right. auto.
    + rewrite E. simpl. auto.
Qed.
End StringFacts.

Lemma existsb_filter_keep (p q : ascii -> bool) s :
  (forall c, q c = true -> p c = true) ->
  Js.existsb q s = true -> Js.existsb q (Js.filter p s) = true.
Proof.
  intros Hpq. induction s as [|c r IH]; simpl; auto.
  intros H. destruct (q c) eqn:E.
  - rewrite (Hpq _ E). simpl. rewrite E. reflexivity.
  - simpl in H. destruct (p c); simpl; auto. rewrite E. auto.
Qed.

(** Facts about single code units, checked on all 256 of them. *)
Ltac all_chars c :=
  destruct c as [[] [] [] [] [] [] [] []]; vm_compute; try reflexivity; try discriminate; auto.

Lemma toLowerChar_alnum c :
  Slug.isAlnum c = true -> Slug.isLowerAlnum (Js.toLowerChar c) = true.
Proof. all_chars c. Qed.

Lemma toLowerChar_not_upper c : Js.isAsciiUpper (Js.toLowerChar c) = false.
Proof. all_chars c. Qed.

Lemma lowerAlnum_not_space c : Slug.isLowerAlnum c = true -> Js.isSpace c = false.
Proof. all_chars c. Qed.

Lemma lowerAlnum_kept c : Slug.isLowerAlnum c = true -> Slug.keptChar c = true.
Proof. all_chars c. Qed.

Lemma lowerAlnum_not_sep c :
  Slug.isLowerAlnum c = true -> Slug.isSpaceOrUnderscore c = false.
Proof. all_chars c. Qed.

Lemma lowerAlnum_not_hyphen c : Slug.isLowerAlnum c = true -> Js.isHyphen c = false.
Proof. all_chars c. Qed.

(** The characters a slug is made of: [a-z0-9-]. *)
Definition slugChar (c : ascii) : bool := Slug.isLowerAlnum c || Js.isHyphen c.

(** What survives lower-casing and the first [replace]. *)
Definition lowKept (c : ascii) : bool :=
  negb (Js.isAsciiUpper c) && Slug.keptChar c.

Lemma lowKept_slugChar c :
  lowKept c = true -> Slug.isSpaceOrUnderscore c = false -> slugChar c = true.
Proof. all_chars c. Qed.

Lemma slugChar_cases c :
  slugChar c = true -> Js.isHyphen c = false -> Slug.isLowerAlnum c = true.
Proof. all_chars c. Qed.

Lemma existsb_toLowerCase x :
  Js.existsb Slug.isAlnum x = true ->
  Js.existsb Slug.isLowerAlnum (Js.toLowerCase x) = true.
Proof.
  induction x as [|c r IH]; simpl; auto.
  intros H. apply orb_true_iff in H as [H|H].
  - rewrite (toLowerChar_alnum _ H). reflexivity.
  - rewrite (IH H). apply orb_true_r.
Qed.

Lemma forallb_toLowerCase x :
  Js.forallb (fun c => negb (Js.isAsciiUpper c)) (Js.toLowerCase x) = true.
Proof.
  induction x as [|c r IH]; simpl; auto.
  rewrite toLowerChar_not_upper. simpl. exact IH.
Qed.

Lemma forallb_and (p q : ascii -> bool) s :
  Js.forallb p s = true -> Js.forallb q s = true ->
  Js.forallb (fun c => p c && q c) s = true.
Proof.
  induction s as [|c r IH]; simpl; auto.
  intros H1 H2. apply andb_true_iff in H1 as [-> H1].
  apply andb_true_iff in H2 as [-> H2]. simpl. auto.
Qed.

Lemma forallb_replace_separators b s :
  Js.forallb lowKept s = true ->
  Js.forallb slugChar (Js.replaceRuns Slug.isSpaceOrUnderscore b s) = true.
Proof.
  revert b. induction s as [|c r IH]; simpl; auto.
  intros b H. apply andb_true_iff in H as [Hc Hr].
  destruct (Slug.isSpaceOrUnderscore c) eqn:E; [destruct b|]; simpl; auto.
  rewrite (lowKept_slugChar _ Hc E). simpl. auto.
Qed.

Lemma forallb_collapse_hyphens b s :
  Js.forallb slugChar s = true ->
  Js.forallb slugChar (Js.replaceRuns Js.isHyphen b s) = true.
Proof.
  revert b. induction s as [|c r IH]; simpl; auto.
  intros b H. apply andb_true_iff in H as [Hc Hr].
  destruct (Js.isHyphen c) eqn:E; [destruct b|]; simpl; auto.
  rewrite Hc. simpl. auto.
Qed.

(** No two hyphens in a row; [prev] says that a hyphen has just been read. *)
Fixpoint singleHyphens (prev : bool) (s : string) : bool :=
  match s with
  | EmptyString => true
  | String c r => negb (prev && Js.isHyphen c) && singleHyphens (Js.isHyphen c) r
  end.

Lemma singleHyphens_collapse b s :
  singleHyphens b (Js.replaceRuns Js.isHyphen b s) = true.
Proof.
  revert b. induction s as [|c r IH]; simpl; auto.
  intros b. destruct (Js.isHyphen c) eqn:E; [destruct b|]; simpl.
  - apply IH.
  - apply IH.
  - rewrite E, andb_false_r. simpl. apply IH.
Qed.

Lemma singleHyphens_weaken b s :
  singleHyphens b s = true -> singleHyphens false s = true.
Proof. destruct s; simpl; auto. intros H. apply andb_true_iff in H as [_ H]. exact H. Qed.

Lemma singleHyphens_dropWhile s :
  singleHyphens false s = true ->
  singleHyphens false (Js.dropWhile Js.isHyphen s) = true.
Proof.
  induction s as [|c r IH]; auto.
  intros H. simpl. destruct (Js.isHyphen c) eqn:E; auto.
  apply IH. simpl in H. rewrite E in H. apply (singleHyphens_weaken true). exact H.
Qed.

(** The string starts with a character of [a-z0-9]. *)
Definition startsLower (s : string) : bool :=
  match s with
  | EmptyString => false
  | String c _ => Slug.isLowerAlnum c
  end.

Lemma startsLower_dropWhile s :
  Js.forallb slugChar s = true ->
  Js.existsb Slug.isLowerAlnum s = true ->
  startsLower (Js.dropWhile Js.isHyphen s) = true.
Proof.
  induction s as [|c r IH]; simpl; try discriminate.
  intros Hall Hex. apply andb_true_iff in Hall as [Hc Hr].
  destruct (Js.isHyphen c) eqn:E.
  - apply IH; auto. destruct (Slug.isLowerAlnum c) eqn:L; auto.
    rewrite (lowerAlnum_not_hyphen _ L) in E. discriminate.
  - simpl. apply slugChar_cases; auto.
Qed.

(** A string over [a-z0-9-] without doubled hyphens that starts with an
    alphanumeric character matches the slug pattern once its trailing
    hyphens are cut. *)
Lemma matchSlug_dropWhileEnd t g :
  Js.forallb slugChar t = true ->
  singleHyphens false t = true ->
  (g = false -> startsLower t = true) ->
  Slug.matchSlug g (Js.dropWhileEnd Js.isHyphen t) = true.
Proof.
  revert g. induction t as [|c r IH]; intros g Hall Hs Hg.
  - simpl. destruct g; [reflexivity|]. discriminate (Hg eq_refl).
  - simpl in Hall. apply andb_true_iff in Hall as [Hc Hr].
    simpl in Hs. cbn [Js.dropWhileEnd].
    destruct (Js.isHyphen c) eqn:E.
    + assert (g = true) as ->.
      { destruct g; auto. specialize (Hg eq_refl). simpl in Hg.
        rewrite (lowerAlnum_not_hyphen _ Hg) in E. discriminate. }
      destruct (Js.isEmpty (Js.dropWhileEnd Js.isHyphen r)) eqn:D; [reflexivity|].
      cbn [andb Slug.matchSlug].
      destruct (Slug.isLowerAlnum c) eqn:L.
      { rewrite (lowerAlnum_not_hyphen _ L) in E. discriminate. }
      rewrite E. cbn [andb]. apply IH; auto.
      * apply (singleHyphens_weaken true). exact Hs.
      * intros _. destruct r as [|c' r']; [discriminate D|].
        simpl in Hs, Hr |- *. apply andb_true_iff in Hs as [Hs _].
        apply andb_true_iff in Hr as [Hc' _].
        apply slugChar_cases; auto. destruct (Js.isHyphen c'); auto; discriminate.
    + cbn [andb Slug.matchSlug]. rewrite (slugChar_cases _ Hc E).
      apply IH; auto. discriminate.
Qed.

(** [C9] [isValidSlug(createSlug(x))] is true for every input [x] that
    contains at least one character of [A-Za-z0-9] (such an [x] is
    non-empty). *)
Theorem isValidSlug_createSlug x :
  Js.existsb Slug.isAlnum x = true ->
  Slug.isValidSlug (Slug.createSlug x) = true.
Proof.
  intros Hx. unfold Slug.isValidSlug, Slug.createSlug, Js.trim.
  set (s1 := Js.dropWhileEnd Js.isSpace (Js.dropWhile Js.isSpace (Js.toLowerCase x))).
  set (s2 := Js.filter Slug.keptChar s1).
  set (s3 := Js.replaceRuns Slug.isSpaceOrUnderscore false s2).
  set (s4 := Js.replaceRuns Js.isHyphen false s3).
  assert (E1 : Js.existsb Slug.isLowerAlnum s1 = true).
  { apply existsb_dropWhileEnd, existsb_dropWhile;
      auto using lowerAlnum_not_space, existsb_toLowerCase. }
  assert (E4 : Js.existsb Slug.isLowerAlnum s4 = true).
  { apply existsb_replaceRuns; [exact lowerAlnum_not_hyphen|].
    apply existsb_replaceRuns; [exact lowerAlnum_not_sep|].
    apply existsb_filter_keep; [exact lowerAlnum_kept|exact E1]. }
  assert (A2 : Js.forallb lowKept s2 = true).
  { apply forallb_and; [|apply forallb_filter_self].
    apply forallb_filter, forallb_dropWhileEnd, forallb_dropWhile, forallb_toLowerCase. }
  assert (A4 : Js.forallb slugChar s4 = true).
  { apply forallb_collapse_hyphens, forallb_replace_separators, A2. }
  apply matchSlug_dropWhileEnd.
  - apply forallb_dropWhile, A4.
  - apply singleHyphens_dropWhile, singleHyphens_collapse.
  - intros _. apply startsLower_dropWhile; auto.
Qed.

(** An input with an alphanumeric character: the hypothesis of
    [isValidSlug_createSlug] holds of it. *)
Lemma isValidSlug_createSlug_witness :
  Js.existsb Slug.isAlnum "My Cron Job #1 (daily)" = true /\
  Slug.isValidSlug (Slug.createSlug "My Cron Job #1 (daily)") = true.
Proof.
  split; [reflexivity|].
  apply (isValidSlug_createSlug "My Cron Job #1 (daily)"). reflexivity.
Defined.

(** *** The random suffix of [createUniqueSlug] *)

(** [A-Za-z0-9_-], the symbols of nanoid's alphabet. *)
Definition isUrlChar (c : ascii) : bool :=
  Slug.isAlnum c || (Js.code c =? 95) || Js.isHyphen c.

Lemma urlAlphabet_get n :
  n < 64 ->
  exists c, String.get n Slug.urlAlphabet = Some c /\ isUrlChar c = true.
Proof.
  intros H.
  do 64 (destruct n as [|n]; [eexists; split; reflexivity|]).
  lia.
Qed.

Lemma nanoidChar_url b : isUrlChar (Slug.nanoidChar b) = true.
Proof.
  unfold Slug.nanoidChar.
  assert (Hn : Z.to_nat (Z.land b 63) < 64).
  { change 63%Z with (Z.ones 6). rewrite Z.land_ones by lia.
    pose proof (Z.mod_pos_bound b (2 ^ 6) eq_refl). change (2 ^ 6)%Z with 64%Z in *. lia. }
  destruct (urlAlphabet_get _ Hn) as (c & -> & Hc). exact Hc.
Qed.

Lemma nanoid_length size random : String.length (Slug.nanoid size random) = size.
Proof. revert random. induction size; simpl; auto. Qed.

Lemma nanoid_url size random : Js.forallb isUrlChar (Slug.nanoid size random) = true.
Proof.
  revert random. induction size as [|n IH]; simpl; auto.
  intros random. rewrite nanoidChar_url. apply IH.
Qed.

(** [C5], as amended: [createUniqueSlug(text)] is [createSlug(text)], a
    hyphen, and six characters drawn from nanoid's 64-symbol alphabet
    [A-Za-z0-9_-] (a 64^6 space): upper-case letters, underscores and hyphens
    can occur in the suffix. *)
Theorem createUniqueSlug_suffix input random :
  exists suffix,
    Slug.createUniqueSlug input random = (Slug.createSlug input ++ "-" ++ suffix)%string /\
    String.length suffix = 6 /\
    Js.forallb isUrlChar suffix = true.
Proof.
  exists (Slug.nanoid 6 random). split; [reflexivity|]. split.
  - apply nanoid_length.
  - apply nanoid_url.
Qed.

(** [C5] as the specification words it (a suffix over [a-z0-9]) fails: when
    the generator hands out the byte 11, nanoid selects the capital T. *)
Lemma createUniqueSlug_suffix_not_lowercase :
  ~ (forall input random, exists suffix,
       Slug.createUniqueSlug input random = (Slug.createSlug input ++ "-" ++ suffix)%string /\
       String.length suffix = 6 /\
       Js.forallb Slug.isLowerAlnum suffix = true).
Proof.
  intros H. destruct (H "Test" (fun _ => 11%Z)) as (suffix & Heq & _ & Hlow).
  vm_compute in Heq. injection Heq as <-. vm_compute in Hlow. discriminate.
Qed.

Example createUniqueSlug_capital :
  Slug.createUniqueSlug "Test" (fun _ => 11%Z) = "test-TTTTTT".
Proof. reflexivity. Qed.

Example createSlug_tests :
  Slug.createSlug "Hello World" = "hello-world" /\
  Slug.createSlug "my_workflow_name" = "my-workflow-name" /\
  Slug.createSlug "hello@world!" = "helloworld" /\
  Slug.createSlug " hello   world " = "hello-world" /\
  Slug.createSlug "" = "" /\
  Slug.createSlug "My Cron Job #1 (daily)" = "my-cron-job-1-daily".
Proof. repeat split; reflexivity. Qed.

Example isValidSlug_tests :
  Slug.isValidSlug "my-workflow-123" = true /\ Slug.isValidSlug "my--workflow" = false /\
  Slug.isValidSlug "-my-workflow" = false /\ Slug.isValidSlug "my-workflow-" = false /\
  Slug.isValidSlug "" = false /\ Slug.isValidSlug "my_workflow" = false /\
  Slug.isValidSlug "My Workflow" = false.
Proof. repeat split; reflexivity. Qed.

(** ** The registry *)

Module RegistryFacts.
Import Registry.

(** How many entries carry the identity ([slug], [projectPath]). *)
Definition countIdentity (slug' projectPath' : string) (l : list RegistryEntry) : nat :=
  List.length (List.filter (hasIdentity slug' projectPath') l).

(** The registry's invariant: at most one entry per identity. *)
Definition uniqueIdentities (l : list RegistryEntry) : Prop :=
  forall slug' projectPath', countIdentity slug' projectPath' l <= 1.

(** The entry [upsertRegistryEntry] writes. *)
Definition stamped (entry : NewEntry) (now : string) : RegistryEntry :=
  {| slug := new_slug entry;
     projectPath := new_projectPath entry;
     manifestPath := new_manifestPath entry;
     workflowId := new_workflowId entry;
     lastSyncedAt := Some now |}.

Section FindIndex.
Context {A : Type} (p : A -> bool).

Lemma findIndex_lower l : (-1 <= findIndex p l)%Z.
Proof.
  induction l as [|x r IH]; simpl; [lia|].
  destruct (p x); [lia|]. destruct (Z.ltb_spec (findIndex p r) 0); lia.
Qed.

Lemma findIndex_absent l :
  (findIndex p l < 0)%Z -> Forall (fun x => p x = false) l.
Proof.
  induction l as [|x r IH]; simpl; intros H; constructor.
  - destruct (p x); [lia|reflexivity].
  - apply IH. destruct (p x); [lia|].
    destruct (Z.ltb_spec (findIndex p r) 0); lia.
Qed.

Lemma findIndex_present l :
  (0 <= findIndex p l)%Z ->
  exists l1 x l2,
    l = l1 ++ x :: l2 /\ p x = true /\ Forall (fun y => p y = false) l1 /\
    Z.to_nat (findIndex p l) = List.length l1.
Proof.
  induction l as [|x r IH]; simpl; [lia|].
  destruct (p x) eqn:E.
  - intros _. exists [], x, r. repeat split; auto.
  - destruct (Z.ltb_spec (findIndex p r) 0) as [Hlt|Hge]; [lia|]. intros _.
    destruct (IH Hge) as (l1 & y & l2 & -> & Hy & Hl1 & Hlen).
    exists (x :: l1), y, l2. repeat split; auto. simpl. lia.
Qed.

Lemma setAt_middle (l1 l2 : list A) x v :
  setAt (List.length l1) v (l1 ++ x :: l2) = l1 ++ v :: l2.
Proof. induction l1 as [|y r IH]; simpl; [reflexivity|]. now rewrite IH. Qed.

Lemma find_first (l1 l2 : list A) x :
  Forall (fun y => p y = false) l1 -> p x = true ->
  List.find p (l1 ++ x :: l2) = Some x.
Proof.
  induction 1 as [|y r Hy _ IH]; simpl; intros Hx.
  - now rewrite Hx.
  - rewrite Hy. auto.
Qed.

Lemma find_absent l : Forall (fun y => p y = false) l -> List.find p l = None.
Proof. induction 1 as [|y r Hy _ IH]; simpl; [reflexivity|]. now rewrite Hy. Qed.

Lemma filter_absent l : Forall (fun y => p y = false) l -> List.filter p l = [].
Proof. induction 1 as [|y r Hy _ IH]; simpl; [reflexivity|]. now rewrite Hy. Qed.

Lemma find_none_absent l : List.find p l = None -> Forall (fun y => p y = false) l.
Proof.
  induction l as [|y r IH]; simpl; [constructor|].
  destruct (p y) eqn:E; [discriminate|]. intros H. constructor; auto.
Qed.

Lemma updateFirst_absent f l :
  Forall (fun y => p y = false) l -> updateFirst p f l = None.
Proof.
  induction 1 as [|y r Hy _ IH]; simpl; [reflexivity|]. now rewrite Hy, IH.
Qed.

Lemma updateFirst_present f l x :
  List.find p l = Some x ->
  exists l1 l2,
    l = l1 ++ x :: l2 /\ Forall (fun y => p y = false) l1 /\
    updateFirst p f l = Some (l1 ++ f x :: l2).
Proof.
  induction l as [|y r IH]; simpl; [discriminate|].
  destruct (p y) eqn:E.
  - intros [= ->]. exists [], r. repeat split; auto.
  - intros H. destruct (IH H) as (l1 & l2 & -> & Hl1 & ->).
    exists (y :: l1), l2. repeat split; auto.
Qed.
End FindIndex.

(** The two outcomes of an upsert: the first entry with the identity is
    replaced where it stands, or the stamped entry is appended. *)
Definition upsertShape (entry : NewEntry) (now : string)
  (before after : list RegistryEntry) : Prop :=
  (exists l1 old l2,
      before = l1 ++ old :: l2 /\
      hasIdentity (new_slug entry) (new_projectPath entry) old = true /\
      Forall (fun w => hasIdentity (new_slug entry) (new_projectPath entry) w = false) l1 /\
      after = l1 ++ stamped entry now :: l2)
  \/
  (Forall (fun w => hasIdentity (new_slug entry) (new_projectPath entry) w = false) before /\
   after = before ++ [stamped entry now]).

Lemma upsert_shape entry now file :
  upsertShape entry now (getAllEntries file)
    (getAllEntries (upsertRegistryEntry entry now file)).
Proof.
  unfold upsertShape, getAllEntries, upsertRegistryEntry.
  set (l := workflows (loadRegistry file)).
  set (p := hasIdentity (new_slug entry) (new_projectPath entry)).
  destruct (Z.leb_spec 0 (findIndex p l)) as [Hge|Hlt]; simpl.
  - left. destruct (findIndex_present p l Hge) as (l1 & x & l2 & E & Hx & Hl1 & Hn).
    exists l1, x, l2. repeat split; auto.
    rewrite Hn, E. apply setAt_middle.
  - right. split; [apply findIndex_absent; exact Hlt|reflexivity].
Qed.

Lemma hasIdentity_stamped entry now :
  hasIdentity (new_slug entry) (new_projectPath entry) (stamped entry now) = true.
Proof. unfold hasIdentity. simpl. now rewrite !String.eqb_refl. Qed.

Lemma hasIdentity_same s p s' p' w :
  hasIdentity s p w = true -> hasIdentity s' p' w = true -> s = s' /\ p = p'.
Proof.
  unfold hasIdentity. intros H H'.
  apply andb_true_iff in H as [H1 H2]. apply andb_true_iff in H' as [H1' H2'].
  apply String.eqb_eq in H1, H2, H1', H2'. split; congruence.
Qed.

Lemma countIdentity_app s p l1 l2 :
  countIdentity s p (l1 ++ l2) = countIdentity s p l1 + countIdentity s p l2.
Proof. unfold countIdentity. now rewrite List.filter_app, List.length_app. Qed.

Lemma countIdentity_cons s p w l :
  countIdentity s p (w :: l) =
  (if hasIdentity s p w then 1 else 0) + countIdentity s p l.
Proof. unfold countIdentity. simpl. now destruct (hasIdentity s p w). Qed.

Lemma hasIdentity_agree s p w w' :
  slug w = slug w' -> projectPath w = projectPath w' ->
  hasIdentity s p w = hasIdentity s p w'.
Proof. unfold hasIdentity. now intros -> ->. Qed.

(** An upsert leaves the number of entries of every other identity as it
    was, and leaves at least one entry of its own identity. *)
Lemma upsert_count entry now before after s p :
  upsertShape entry now before after ->
  countIdentity s p after =
  if hasIdentity s p (stamped entry now)
  then Nat.max 1 (countIdentity s p before)
  else countIdentity s p before.
Proof.
  intros [(l1 & old & l2 & -> & Hold & Hl1 & ->)|(Habs & ->)].
  - rewrite !countIdentity_app, !countIdentity_cons.
    assert (Hsame : hasIdentity s p old = hasIdentity s p (stamped entry now)).
    { destruct (hasIdentity s p old) eqn:E1, (hasIdentity s p (stamped entry now)) eqn:E2;
        auto.
      - destruct (hasIdentity_same _ _ _ _ _ E1 Hold) as [-> ->].
        rewrite hasIdentity_stamped in E2. discriminate.
      - pose proof (hasIdentity_stamped entry now) as E3.
        destruct (hasIdentity_same _ _ _ _ _ E2 E3) as [-> ->]. congruence. }
    rewrite Hsame. destruct (hasIdentity s p (stamped entry now)); lia.
  - rewrite countIdentity_app, countIdentity_cons.
    change (countIdentity s p []) with 0.
    destruct (hasIdentity s p (stamped entry now)) eqn:E; [|lia].
    pose proof (hasIdentity_stamped entry now) as E3.
    destruct (hasIdentity_same _ _ _ _ _ E E3) as [-> ->].
    unfold countIdentity. rewrite (filter_absent _ _ Habs). reflexivity.
Qed.

Lemma upsert_unique entry now file :
  uniqueIdentities (getAllEntries file) ->
  uniqueIdentities (getAllEntries (upsertRegistryEntry entry now file)).
Proof.
  intros H s p. rewrite (upsert_count entry now _ _ s p (upsert_shape entry now file)).
  specialize (H s p). destruct (hasIdentity s p (stamped entry now)); lia.
Qed.

Lemma upsert_get entry now file :
  getEntry (new_slug entry) (new_projectPath entry)
    (upsertRegistryEntry entry now file) = Some (stamped entry now).
Proof.
  pose proof (upsert_shape entry now file) as H.
  unfold getEntry. unfold getAllEntries in H.
  destruct H as [(l1 & old & l2 & _ & _ & Hl1 & ->)|(Habs & ->)].
  - apply find_first; auto using hasIdentity_stamped.
  - apply find_first; auto using hasIdentity_stamped.
Qed.
Lemma filter_split {A} (p : A -> bool) l :
  List.length (List.filter (fun x => negb (p x)) l) + List.length (List.filter p l)
  = List.length l.
Proof.
  induction l as [|x r IH]; simpl; [reflexivity|].
  destruct (p x); simpl; lia.
Qed.

Lemma find_some_count s p l e :
  List.find (hasIdentity s p) l = Some e -> 1 <= countIdentity s p l.
Proof.
  intros H. destruct (List.find_some _ _ H) as [Hin He].
  apply List.in_split in Hin as (l1 & l2 & ->).
  rewrite countIdentity_app, countIdentity_cons, He. lia.
Qed.

Lemma upsert_leaves_one entry now file :
  uniqueIdentities (getAllEntries file) ->
  countIdentity (new_slug entry) (new_projectPath entry)
    (getAllEntries (upsertRegistryEntry entry now file)) = 1.
Proof.
  intros H. rewrite (upsert_count entry now _ _ _ _ (upsert_shape entry now file)).
  rewrite hasIdentity_stamped.
  specialize (H (new_slug entry) (new_projectPath entry)). lia.
Qed.

Lemma countIdentity_filter s p (q : RegistryEntry -> bool) l :
  countIdentity s p (List.filter q l) <= countIdentity s p l.
Proof.
  unfold countIdentity. induction l as [|w r IH]; simpl; [lia|].
  destruct (q w) eqn:Eq, (hasIdentity s p w) eqn:Eh; simpl; rewrite ?Eh; simpl; lia.
Qed.

Lemma updateWorkflowId_unique s p id now file :
  uniqueIdentities (getAllEntries file) ->
  uniqueIdentities (getAllEntries (updateWorkflowId s p id now file)).
Proof.
  intros H. unfold updateWorkflowId, getAllEntries in *.
  destruct (List.find (hasIdentity s p) (workflows (loadRegistry file))) as [e|] eqn:E.
  - match goal with |- context [updateFirst ?q ?f ?l] =>
      destruct (updateFirst_present q f l e E) as (l1 & l2 & El & _ & ->) end.
    simpl. intros s' p'. specialize (H s' p'). rewrite El in H.
    rewrite countIdentity_app, countIdentity_cons in *.
    erewrite hasIdentity_agree; [exact H| |]; reflexivity.
  - apply find_none_absent in E. now rewrite (updateFirst_absent _ _ _ E).
Qed.

Lemma removeRegistryEntry_unique s p file :
  uniqueIdentities (getAllEntries file) ->
  uniqueIdentities (getAllEntries (snd (removeRegistryEntry s p file))).
Proof.
  intros H. unfold removeRegistryEntry, getAllEntries in *.
  match goal with |- context [if ?b then _ else _] => destruct b end; simpl; auto.
  intros s' p'. specialize (H s' p').
  pose proof (countIdentity_filter s' p' (fun w => negb (hasIdentity s p w))
                (workflows (loadRegistry file))). lia.
Qed.

(** The registry files the tool can arrive at: it starts without a file (or
    with one it cannot read) and applies its three writing operations. *)
Inductive Reachable : RegistryFile -> Prop :=
| Reachable_missing : Reachable Missing
| Reachable_corrupt : Reachable Corrupt
| Reachable_upsert file entry now :
    Reachable file -> Reachable (upsertRegistryEntry entry now file)
| Reachable_update file s p id now :
    Reachable file -> Reachable (updateWorkflowId s p id now file)
| Reachable_remove file s p :
    Reachable file -> Reachable (snd (removeRegistryEntry s p file)).

(** Every registry the tool arrives at holds at most one entry per
    identity. *)
Lemma reachable_unique file : Reachable file -> uniqueIdentities (getAllEntries file).
Proof.
  induction 1.
  - intros s p. apply Nat.le_0_l.
  - intros s p. apply Nat.le_0_l.
  - now apply upsert_unique.
  - now apply updateWorkflowId_unique.
  - now apply removeRegistryEntry_unique.
Qed.

(** A registry file for the examples: two entries of two projects. *)
Definition sampleEntry (slug' project : string) : RegistryEntry :=
  {| slug := slug'; projectPath := project;
     manifestPath := (project ++ "/workflows/" ++ slug' ++ ".cron8n.json")%string;
     workflowId := None; lastSyncedAt := Some "2024-01-01T00:00:00.000Z" |}.

Definition sampleInput (slug' project : string) : NewEntry :=
  {| new_slug := slug'; new_projectPath := project;
     new_manifestPath := (project ++ "/workflows/" ++ slug' ++ ".cron8n.json")%string;
     new_workflowId := None |}.

(** The registry after [daily-backup] was created in two projects. *)
Definition sampleFile : RegistryFile :=
  upsertRegistryEntry (sampleInput "daily-backup" "/srv/b") "2024-01-01T00:00:00.000Z"
    (upsertRegistryEntry (sampleInput "daily-backup" "/srv/a") "2024-01-01T00:00:00.000Z"
       Missing).

Example sampleFile_entries :
  getAllEntries sampleFile
  = [ sampleEntry "daily-backup" "/srv/a"; sampleEntry "daily-backup" "/srv/b" ].
Proof. reflexivity. Qed.

Definition sampleNew (manifest : string) (id : option string) : NewEntry :=
  {| new_slug := "daily-backup"; new_projectPath := "/srv/b";
     new_manifestPath := manifest; new_workflowId := id |}.

Lemma sampleFile_unique : uniqueIdentities (getAllEntries sampleFile).
Proof. apply reachable_unique. repeat constructor. Qed.

(** [C6] [upsertRegistryEntry] stamps [lastSyncedAt] with the current time
    and keeps the invariant that at most one entry exists per
    ([slug], [projectPath]): the entry with that identity is replaced where it
    stands, otherwise the new one is appended.  After two upserts with the
    same identity there is exactly one entry for it, it carries the second
    call's fields, and [getEntry] returns it with a non-empty
    [lastSyncedAt]. *)
Theorem upsertRegistryEntry_keeps_one_per_identity
  (file : RegistryFile) (first second : NewEntry) (now1 now2 : string) :
  uniqueIdentities (getAllEntries file) ->
  now1 <> "" -> now2 <> "" ->
  new_slug second = new_slug first ->
  new_projectPath second = new_projectPath first ->
  let file1 := upsertRegistryEntry first now1 file in
  let file2 := upsertRegistryEntry second now2 file1 in
  upsertShape first now1 (getAllEntries file) (getAllEntries file1) /\
  uniqueIdentities (getAllEntries file1) /\
  (exists e t, getEntry (new_slug first) (new_projectPath first) file1 = Some e /\
               e = stamped first now1 /\ lastSyncedAt e = Some t /\ t = now1 /\ t <> "") /\
  uniqueIdentities (getAllEntries file2) /\
  countIdentity (new_slug first) (new_projectPath first) (getAllEntries file2) = 1 /\
  (exists e t, getEntry (new_slug first) (new_projectPath first) file2 = Some e /\
               e = stamped second now2 /\ lastSyncedAt e = Some t /\ t = now2 /\ t <> "").
Proof.
  intros Huniq Hn1 Hn2 Hs Hp file1 file2.
  assert (U1 : uniqueIdentities (getAllEntries file1)) by (apply upsert_unique, Huniq).
  assert (U2 : uniqueIdentities (getAllEntries file2)) by (apply upsert_unique, U1).
  repeat split; auto.
  - apply upsert_shape.
  - exists (stamped first now1), now1. repeat split; auto. apply upsert_get.
  - unfold file2.
    rewrite (upsert_count second now2 _ _ _ _ (upsert_shape second now2 file1)).
    rewrite <- Hs, <- Hp, hasIdentity_stamped.
    specialize (U1 (new_slug second) (new_projectPath second)). lia.
  - exists (stamped second now2), now2. repeat split; auto.
    rewrite <- Hs, <- Hp. apply upsert_get.
Qed.

(** Two upserts of the identity (daily-backup, /srv/b) into a registry that
    already holds it. *)
Lemma upsertRegistryEntry_keeps_one_per_identity_witness :
  let file1 := upsertRegistryEntry (sampleNew "m1" None) "2024-05-01T10:00:00.000Z" sampleFile in
  let file2 := upsertRegistryEntry (sampleNew "m2" (Some "42")) "2024-05-02T10:00:00.000Z" file1 in
  countIdentity "daily-backup" "/srv/b" (getAllEntries file2) = 1 /\
  getEntry "daily-backup" "/srv/b" file2 =
    Some (stamped (sampleNew "m2" (Some "42")) "2024-05-02T10:00:00.000Z").
Proof.
  destruct (upsertRegistryEntry_keeps_one_per_identity sampleFile
              (sampleNew "m1" None) (sampleNew "m2" (Some "42"))
              "2024-05-01T10:00:00.000Z" "2024-05-02T10:00:00.000Z"
              sampleFile_unique
              ltac:(discriminate) ltac:(discriminate) eq_refl eq_refl)
    as (_ & _ & _ & _ & Hcount & (e & t & Hget & -> & _)).
  split; [exact Hcount|exact Hget].
Defined.

(** [C7] [removeRegistryEntry] on an identity without an entry returns
    false and leaves the registry file as it is; on an identity with an entry
    it returns true and the number of entries goes down by exactly one (the
    registry holding at most one entry per identity). *)
Theorem removeRegistryEntry_count (file : RegistryFile) (slug' projectPath' : string) :
  uniqueIdentities (getAllEntries file) ->
  (getEntry slug' projectPath' file = None ->
     removeRegistryEntry slug' projectPath' file = (false, file)) /\
  (forall e, getEntry slug' projectPath' file = Some e ->
     fst (removeRegistryEntry slug' projectPath' file) = true /\
     List.length (getAllEntries (snd (removeRegistryEntry slug' projectPath' file))) + 1
       = List.length (getAllEntries file) /\
     getEntry slug' projectPath' (snd (removeRegistryEntry slug' projectPath' file)) = None).
Proof.
  intros Huniq. unfold removeRegistryEntry, getEntry, getAllEntries in *.
  set (l := workflows (loadRegistry file)) in *.
  pose proof (filter_split (hasIdentity slug' projectPath') l) as Hsplit.
  split.
  - intros Hnone. apply find_none_absent in Hnone.
    rewrite (filter_absent _ _ Hnone) in Hsplit. simpl in Hsplit.
    destruct (Nat.ltb_spec
      (List.length (List.filter (fun w => negb (hasIdentity slug' projectPath' w)) l))
      (List.length l)); [lia|reflexivity].
  - intros e He. pose proof (find_some_count _ _ _ _ He) as Hge.
    specialize (Huniq slug' projectPath'). unfold countIdentity in *.
    destruct (Nat.ltb_spec
      (List.length (List.filter (fun w => negb (hasIdentity slug' projectPath' w)) l))
      (List.length l)); [|lia].
    simpl. repeat split; [lia|].
    apply find_absent. apply List.Forall_forall. intros w Hw.
    apply List.filter_In in Hw as [_ Hw]. now apply negb_true_iff in Hw.
Qed.

Lemma removeRegistryEntry_count_witness :
  removeRegistryEntry "weekly-report" "/srv/a" sampleFile = (false, sampleFile) /\
  fst (removeRegistryEntry "daily-backup" "/srv/a" sampleFile) = true /\
  List.length (getAllEntries (snd (removeRegistryEntry "daily-backup" "/srv/a" sampleFile))) + 1
    = List.length (getAllEntries sampleFile).
Proof.
  destruct (removeRegistryEntry_count sampleFile "weekly-report" "/srv/a" sampleFile_unique)
    as [Habsent _].
  destruct (removeRegistryEntry_count sampleFile "daily-backup" "/srv/a" sampleFile_unique)
    as [_ Hpresent].
  destruct (Hpresent _ eq_refl) as (Htrue & Hlen & _).
  split; [exact (Habsent eq_refl)|]. split; [exact Htrue|exact Hlen].
Defined.

(** Without the invariant, [removeRegistryEntry] takes out every entry of the
    identity: the count goes down by their number. *)
Lemma removeRegistryEntry_length (file : RegistryFile) (slug' projectPath' : string) :
  List.length (getAllEntries (snd (removeRegistryEntry slug' projectPath' file)))
  + countIdentity slug' projectPath' (getAllEntries file)
  = List.length (getAllEntries file).
Proof.
  unfold removeRegistryEntry, getAllEntries, countIdentity.
  set (l := workflows (loadRegistry file)).
  pose proof (filter_split (hasIdentity slug' projectPath') l) as Hsplit.
  destruct (Nat.ltb_spec
    (List.length (List.filter (fun w => negb (hasIdentity slug' projectPath' w)) l))
    (List.length l)); simpl; fold l; lia.
Qed.

(** [C8] [updateWorkflowId] on an identity without an entry leaves the
    registry file exactly as it is and creates nothing; on an identity with
    an entry it changes the [workflowId] and [lastSyncedAt] of that entry
    only: its other fields and all other entries stay, in the same order. *)
Theorem updateWorkflowId_frame
  (file : RegistryFile) (slug' projectPath' workflowId' now : string) :
  (getEntry slug' projectPath' file = None ->
     updateWorkflowId slug' projectPath' workflowId' now file = file) /\
  (forall e, getEntry slug' projectPath' file = Some e ->
     exists l1 l2 e',
       getAllEntries file = l1 ++ e :: l2 /\
       Forall (fun w => hasIdentity slug' projectPath' w = false) l1 /\
       getAllEntries (updateWorkflowId slug' projectPath' workflowId' now file)
         = l1 ++ e' :: l2 /\
       slug e' = slug e /\ projectPath e' = projectPath e /\
       manifestPath e' = manifestPath e /\
       workflowId e' = Some workflowId' /\ lastSyncedAt e' = Some now).
Proof.
  unfold updateWorkflowId, getEntry, getAllEntries. split.
  - intros Hnone. apply find_none_absent in Hnone.
    now rewrite (updateFirst_absent _ _ _ Hnone).
  - intros e He.
    match goal with |- context [updateFirst ?p ?f ?l] =>
      destruct (updateFirst_present p f l e He) as (l1 & l2 & E & Hl1 & ->) end.
    exists l1, l2. eexists. repeat split; eauto.
Qed.

Lemma updateWorkflowId_frame_witness :
  updateWorkflowId "weekly-report" "/srv/a" "42" "2024-05-01T10:00:00.000Z" sampleFile
    = sampleFile /\
  exists e', getAllEntries
      (updateWorkflowId "daily-backup" "/srv/b" "42" "2024-05-01T10:00:00.000Z" sampleFile)
    = [sampleEntry "daily-backup" "/srv/a"; e'] /\ workflowId e' = Some "42".
Proof.
  destruct (updateWorkflowId_frame sampleFile "weekly-report" "/srv/a" "42"
              "2024-05-01T10:00:00.000Z") as [Habsent _].
  split; [exact (Habsent eq_refl)|].
  exists {| slug := "daily-backup"; projectPath := "/srv/b";
            manifestPath := "/srv/b/workflows/daily-backup.cron8n.json";
            workflowId := Some "42"; lastSyncedAt := Some "2024-05-01T10:00:00.000Z" |}.
  split; reflexivity.
Defined.

End RegistryFacts.

(** ** Cron-node detection *)

Module DiscoverFacts.

(** [needle] occurs in [hay]. *)
Definition Substring (needle hay : string) : Prop :=
  exists pre suf, hay = (pre ++ needle ++ suf)%string.

Lemma startsWith_spec needle hay :
  Js.startsWith needle hay = true <-> exists suf, hay = (needle ++ suf)%string.
Proof.
  revert hay. induction needle as [|a n IH]; intros hay; simpl.
  - split; [intros _; now exists hay|reflexivity].
  - destruct hay as [|b h].
    + split; [discriminate|]. intros [suf H]. discriminate.
    + rewrite andb_true_iff, Ascii.eqb_eq, IH. split.
      * intros [-> [suf ->]]. now exists suf.
      * intros [suf [= -> ->]]. split; [reflexivity|now exists suf].
Qed.

Lemma includes_spec hay needle :
  Js.includes hay needle = true <-> Substring needle hay.
Proof.
  unfold Substring. induction hay as [|b h IH]; simpl.
  - rewrite orb_false_r, startsWith_spec. split.
    + intros [suf ->]. now exists "", suf.
    + intros ([|c pre] & suf & H); [now exists suf|discriminate].
  - rewrite orb_true_iff, startsWith_spec, IH. split.
    + intros [[suf ->]|(pre & suf & ->)].
      * now exists "", suf.
      * now exists (String b pre), suf.
    + intros ([|c pre] & suf & H).
      * left. now exists suf.
      * right. injection H as -> ->. now exists pre, suf.
Qed.

Lemma toLowerCase_app a b :
  Js.toLowerCase (a ++ b) = (Js.toLowerCase a ++ Js.toLowerCase b)%string.
Proof. induction a as [|c r IH]; simpl; [reflexivity|now rewrite IH]. Qed.

Lemma Substring_toLowerCase needle hay :
  Substring needle hay -> Substring (Js.toLowerCase needle) (Js.toLowerCase hay).
Proof.
  intros (pre & suf & ->). exists (Js.toLowerCase pre), (Js.toLowerCase suf).
  now rewrite !toLowerCase_app.
Qed.

(** [C10] [isCronNode] holds exactly when the lower-cased type of the node
    and one of the three lower-cased known identifiers contain one another,
    in either direction; so it holds of every node whose type occurs inside a
    known identifier, the node with the empty type among them. *)
Theorem isCronNode_bidirectional (node : Api.N8nNode) :
  (Discover.isCronNode node = true <->
   exists type, In type Discover.CRON_NODE_TYPES /\
     (Substring (Js.toLowerCase type) (Js.toLowerCase (Api.type_ node)) \/
      Substring (Js.toLowerCase (Api.type_ node)) (Js.toLowerCase type))) /\
  (forall type, In type Discover.CRON_NODE_TYPES ->
     Substring (Api.type_ node) type -> Discover.isCronNode node = true) /\
  (Api.type_ node = "" -> Discover.isCronNode node = true).
Proof.
  assert (Hiff : Discover.isCronNode node = true <->
   exists type, In type Discover.CRON_NODE_TYPES /\
     (Substring (Js.toLowerCase type) (Js.toLowerCase (Api.type_ node)) \/
      Substring (Js.toLowerCase (Api.type_ node)) (Js.toLowerCase type))).
  { unfold Discover.isCronNode. rewrite List.existsb_exists.
    split; intros (type & Hin & H); exists type; split; auto.
    - apply orb_true_iff in H. now rewrite !includes_spec in H.
    - apply orb_true_iff. now rewrite !includes_spec. }
  split; [exact Hiff|]. split.
  - intros type Hin Hsub. apply Hiff. exists type. split; [exact Hin|].
    right. now apply Substring_toLowerCase.
  - intros Hempty. apply Hiff. exists "n8n-nodes-base.cron". split; [now left|].
    right. rewrite Hempty. now exists "", "n8n-nodes-base.cron".
Qed.

Definition nodeOfType (type : string) : Api.N8nNode :=
  {| Api.node_id := None; Api.node_name := "Node"; Api.type_ := type;
     Api.typeVersion := None; Api.position := [250%Z; 300%Z];
     Api.parameters := None; Api.credentials := None |}.

Example isCronNode_tests :
  Discover.isCronNode (nodeOfType "n8n-nodes-base.scheduleTrigger") = true /\
  Discover.isCronNode (nodeOfType "n8n-nodes-base.cron") = true /\
  Discover.isCronNode (nodeOfType "n8n-nodes-base.httpRequest") = false /\
  Discover.isCronNode (nodeOfType "") = true /\
  Discover.isCronNode (nodeOfType "base") = true /\
  Discover.isCronNode (nodeOfType "TRIGGER") = true.
Proof. repeat split; reflexivity. Qed.

End DiscoverFacts.

(** ** Manifests *)

Module ManifestFacts.
Import Manifest.

(** The member of a stored document with the given key. *)
Definition documentMember (key : string) (document : Json) : option Json :=
  match document with
  | JObj members => member key members
  | _ => None
  end.

Lemma member_optional key key' value :
  key' <> key -> member key (optionalMember key' value) = None.
Proof.
  intros H. destruct value; simpl; [|reflexivity].
  destruct (String.eqb_spec key' key); [contradiction|reflexivity].
Qed.

Lemma member_app key l1 l2 :
  member key (l1 ++ l2) =
  match member key l1 with Some v => Some v | None => member key l2 end.
Proof.
  induction l1 as [|[k v] r IH]; simpl; [reflexivity|].
  destruct (String.eqb k key); auto.
Qed.

(** No manifest the code writes has an [updatedAt] member. *)
Lemma toJson_no_updatedAt m : documentMember "updatedAt" (toJson m) = None.
Proof.
  unfold toJson, documentMember. simpl.
  rewrite member_app, !member_optional by discriminate. reflexivity.
Qed.

Lemma toJson_deployment m :
  documentMember "lastDeployedWorkflowId" (toJson m)
    = option_map JStr (lastDeployedWorkflowId m) /\
  documentMember "lastDeployedAt" (toJson m) = option_map JStr (lastDeployedAt m).
Proof.
  unfold toJson, documentMember. simpl. rewrite !member_app.
  destruct (lastDeployedWorkflowId m), (lastDeployedAt m); simpl; auto.
Qed.

(** The deploy route of the web UI, for comparison, does write
    [updatedAt]. *)
Lemma deployedDocument_updatedAt m id now now' :
  documentMember "updatedAt" (UiServer.deployedDocument m id now now')
    = Some (JStr now').
Proof.
  unfold UiServer.deployedDocument, toJson, UiServer.withMember, documentMember.
  rewrite !member_app. simpl. rewrite !member_optional by discriminate. reflexivity.
Qed.

(** [C2] (what the code does) [updateManifestDeployment] loads the
    manifest of the slug, sets [lastDeployedWorkflowId] to the given id and
    [lastDeployedAt] to the current time, keeps the other fields and saves
    the manifest under the slug it carries; the document it saves has no
    [updatedAt] member, so [updatedAt] is not set to the current time. *)
Theorem updateManifestDeployment_saves_no_updatedAt
  (join : string -> string -> string) (cwd slug' workflowId : string)
  (basePath : option string) (now : string) (fs : Fs.FileSystem) (loaded : Manifest) :
  loadManifest join cwd slug' basePath fs = Ok loaded ->
  exists saved,
    updateManifestDeployment join cwd slug' workflowId basePath now fs
      = (Ok saved,
         Fs.writeJson (getManifestPath join cwd (slug loaded) basePath) (toJson saved) fs) /\
    lastDeployedWorkflowId saved = Some workflowId /\
    lastDeployedAt saved = Some now /\
    (slug saved, name saved, createdAt saved, template saved,
     cronExpression saved, timezone saved, tags saved)
    = (slug loaded, name loaded, createdAt loaded, template loaded,
       cronExpression loaded, timezone loaded, tags loaded) /\
    documentMember "lastDeployedWorkflowId" (toJson saved) = Some (JStr workflowId) /\
    documentMember "lastDeployedAt" (toJson saved) = Some (JStr now) /\
    documentMember "updatedAt" (toJson saved) = None.
Proof.
  intros Hload. unfold updateManifestDeployment. rewrite Hload.
  eexists. split; [reflexivity|].
  split; [reflexivity|]. split; [reflexivity|]. split; [reflexivity|].
  split; [|split].
  - rewrite (proj1 (toJson_deployment _)). reflexivity.
  - rewrite (proj2 (toJson_deployment _)). reflexivity.
  - apply toJson_no_updatedAt.
Qed.

(** A project directory with the manifest of [daily-backup], deployed
    before, whose file carries an [updatedAt] member written by an edit. *)
Definition posixJoin (a b : string) : string := (a ++ "/" ++ b)%string.

Definition backupDocument : Json :=
  JObj [ ("slug", JStr "daily-backup");
         ("name", JStr "Daily Backup");
         ("createdAt", JStr "2024-01-01T00:00:00.000Z");
         ("template", JStr "shell-command");
         ("cronExpression", JStr "0 0 * * *");
         ("timezone", JStr "UTC");
         ("tags", JArr [JStr "managed-by:cron8n"; JStr "cron8n:daily-backup"]);
         ("updatedAt", JStr "2024-02-02T00:00:00.000Z") ].

Definition backupProject : Fs.FileSystem :=
  Fs.writeJson "/srv/a/workflows/daily-backup.cron8n.json" backupDocument (fun _ => None).

Lemma updateManifestDeployment_saves_no_updatedAt_witness :
  exists saved fs',
    updateManifestDeployment posixJoin "/srv/a" "daily-backup" "42" None
      "2024-05-01T10:00:00.000Z" backupProject = (Ok saved, fs') /\
    fs' "/srv/a/workflows/daily-backup.cron8n.json" = Some (Fs.JsonDoc (toJson saved)) /\
    documentMember "lastDeployedAt" (toJson saved) = Some (JStr "2024-05-01T10:00:00.000Z") /\
    documentMember "updatedAt" (toJson saved) = None.
Proof.
  destruct (updateManifestDeployment_saves_no_updatedAt posixJoin "/srv/a"
              "daily-backup" "42" None "2024-05-01T10:00:00.000Z" backupProject
              _ eq_refl) as (saved & Hrun & _ & _ & _ & _ & Hat & Hup).
  exists saved. eexists. split; [exact Hrun|].
  split; [|split; [exact Hat|exact Hup]].
  injection Hrun as <-. reflexivity.
Defined.

End ManifestFacts.

(** ** The remote client *)

Module ClientFacts.
Import Api Client.

Lemma dedupeFrom_In seen ids x :
  In x (dedupeFrom seen ids) <-> In x ids /\ ~ In x seen.
Proof.
  revert seen. induction ids as [|y r IH]; intros seen; simpl.
  - tauto.
  - destruct (List.existsb (String.eqb y) seen) eqn:E.
    + apply List.existsb_exists in E as (z & Hz & Hyz).
      apply String.eqb_eq in Hyz. subst z. rewrite IH. split.
      * tauto.
      * intros [[->|H] Hn]; tauto.
    + assert (Hy : ~ In y seen).
      { intros Hin. assert (List.existsb (String.eqb y) seen = true); [|congruence].
        apply List.existsb_exists. exists y. split; auto. apply String.eqb_refl. }
      simpl. rewrite IH. simpl. split.
      * intros [->|[H Hn]]; [tauto|]. split; [tauto|]. intros Hs. apply Hn. now right.
      * intros [[->|H] Hn]; [now left|].
        destruct (String.eqb_spec y x) as [->|Hne]; [now left|].
        right. split; auto. intros [?|?]; tauto.
Qed.

Lemma dedupeFrom_NoDup seen ids : NoDup (dedupeFrom seen ids).
Proof.
  revert seen. induction ids as [|y r IH]; intros seen; simpl.
  - constructor.
  - destruct (List.existsb (String.eqb y) seen); auto.
    constructor; auto. rewrite dedupeFrom_In. simpl. tauto.
Qed.

(** [dedupe] yields the union of the elements, each once. *)
Lemma dedupe_union a b :
  NoDup (dedupe (a ++ b)) /\ forall x, In x (dedupe (a ++ b)) <-> In x a \/ In x b.
Proof.
  split; [apply dedupeFrom_NoDup|]. intros x. unfold dedupe.
  rewrite dedupeFrom_In, List.in_app_iff. simpl. tauto.
Qed.

Definition isTagList (e : Exchange) : bool :=
  match fst e with
  | GetTags => true
  | _ => false
  end.

(** The number of tag-list requests among the exchanges. *)
Definition countTagLists (log : list Exchange) : nat :=
  List.length (List.filter isTagList log).

Definition named (name : string) (t : N8nTag) : bool := String.eqb (tag_name t) name.

(** The conversation that resolves the desired names to tag ids: for every
    name one listing of the tags, followed by the creation of the tag when
    that listing does not have the name. *)
Inductive Resolves : list string -> list Exchange -> list string -> Prop :=
| Resolves_nil : Resolves [] [] []
| Resolves_found name names listing t log ids :
    List.find (named name) listing = Some t ->
    Resolves names log ids ->
    Resolves (name :: names)
             ((GetTags, Success (TagList listing)) :: log)
             (tag_id t :: ids)
| Resolves_created name names listing t log ids :
    List.find (named name) listing = None ->
    Resolves names log ids ->
    Resolves (name :: names)
             ((GetTags, Success (TagList listing))
                :: (PostTag name, Success (Tag t)) :: log)
             (tag_id t :: ids).

Lemma Resolves_counts names log ids :
  Resolves names log ids ->
  countTagLists log = List.length names /\ List.length ids = List.length names.
Proof.
  unfold countTagLists.
  induction 1 as [|? ? ? ? ? ? _ _ [IH1 IH2]|? ? ? ? ? ? _ _ [IH1 IH2]];
    simpl; auto.
Qed.

Section Server.
Variable ServerState : Type.
Variable serve : Request -> ServerState -> Reply * ServerState.

#[local] Abbreviation resolveTags := (Client.resolveTags ServerState serve).
#[local] Abbreviation addTagsToWorkflow := (Client.addTagsToWorkflow ServerState serve).
#[local] Abbreviation listWorkflows := (Client.listWorkflows ServerState serve).
#[local] Abbreviation listWorkflowsLoop := (Client.listWorkflowsLoop ServerState serve).

Lemma resolveTags_spec names :
  forall acc st ids' st' log,
    resolveTags names acc st = (Done ids', st', log) ->
    exists ids, ids' = acc ++ ids /\ Resolves names log ids.
Proof.
  induction names as [|name rest IH]; intros acc st ids' st' log H.
  - cbn in H. unfold ret in H. inversion H; subst.
    exists []. split; [now rewrite List.app_nil_r|constructor].
  - cbn [Client.resolveTags] in H.
    unfold getOrCreateTag, listTags, createTag in H.
    unfold request, ret, throw, bind in H.
    destruct (serve GetTags st) as [[body|msg code] st1] eqn:E1;
      simpl in H; [|discriminate].
    destruct body; simpl in H; try discriminate.
    destruct (List.find (fun t => String.eqb (tag_name t) name) data) as [t|] eqn:Ef;
      simpl in H.
    + destruct (Client.resolveTags ServerState serve rest (acc ++ [tag_id t]) st1)
        as [[out st2] log2] eqn:E2.
      destruct out; inversion H; subst.
      destruct (IH _ _ _ _ _ E2) as (ids & -> & Hr).
      exists (tag_id t :: ids). split; [now rewrite <- List.app_assoc|].
      now apply Resolves_found.
    + destruct (serve (PostTag name) st1) as [[body|msg code] st2] eqn:E3;
        simpl in H; [|discriminate].
      destruct body; simpl in H; try discriminate.
      destruct (Client.resolveTags ServerState serve rest (acc ++ [tag_id tag]) st2)
        as [[out st3] log3] eqn:E2.
      destruct out; inversion H; subst.
      destruct (IH _ _ _ _ _ E2) as (ids & -> & Hr).
      exists (tag_id tag :: ids). split; [now rewrite <- List.app_assoc|].
      now apply Resolves_created.
Qed.

Lemma countTagLists_app l1 l2 :
  countTagLists (l1 ++ l2) = countTagLists l1 + countTagLists l2.
Proof. unfold countTagLists. now rewrite List.filter_app, List.length_app. Qed.

(** [C1], as amended: a call of [addTagsToWorkflow] that returns has
    issued one tag-list request for each desired name (as many listings as
    names, none shared), has created a tag exactly when the listing fetched
    for its name lacks it, has then fetched the workflow, and has set back
    the union of the workflow's tag ids and the desired tags' ids, each id
    once. *)
Theorem addTagsToWorkflow_requests
  (workflowId : string) (tagNames : list string) (st st' : ServerState)
  (log : list Exchange) :
  addTagsToWorkflow workflowId tagNames st = (Done tt, st', log) ->
  exists resolving ids workflow reply,
    let sent := dedupe (existingTagIds workflow ++ ids) in
    log = resolving ++
          [ (GetWorkflow workflowId, Success (Workflow workflow));
            (PutWorkflowTags workflowId sent, reply) ] /\
    Resolves tagNames resolving ids /\
    countTagLists log = List.length tagNames /\
    NoDup sent /\
    (forall id, In id sent <-> In id (existingTagIds workflow) \/ In id ids).
Proof.
  intros H. unfold Client.addTagsToWorkflow, bind in H.
  destruct (Client.resolveTags ServerState serve tagNames [] st)
    as [[out st1] log1] eqn:E1.
  destruct out as [tagIds| |]; try discriminate.
  destruct (resolveTags_spec _ _ _ _ _ _ E1) as (ids & -> & Hr). simpl in H.
  unfold getWorkflow, setWorkflowTags in H. unfold request, ret, throw, bind in H.
  destruct (serve (GetWorkflow workflowId) st1) as [[body|msg code] st2] eqn:E2;
    simpl in H; [|discriminate].
  destruct body; simpl in H; try discriminate.
  match type of H with context [serve ?r st2] =>
    destruct (serve r st2) as [[body|msg code] st3] eqn:E3;
      simpl in H; [|discriminate] end.
  inversion H; subst.
  exists log1, ids, workflow, (Success body). cbv zeta.
  split; [reflexivity|]. split; [exact Hr|]. split.
  - rewrite countTagLists_app. change (countTagLists [_; _]) with 0.
    rewrite (proj1 (Resolves_counts _ _ _ Hr)). lia.
  - apply dedupe_union.
Qed.

(** The conversation that pages through the workflows from the cursor
    [c]: the server answers the request for [c] with a page; a page with a
    non-empty next cursor is followed by the request for that cursor, a page
    without one (none, null or empty) ends the conversation. *)
Inductive Pages (options : ListWorkflowsOptions)
  : ServerState -> option string -> list Exchange -> list (list N8nWorkflow)
    -> ServerState -> Prop :=
| Pages_last st c data next st' :
    serve (GetWorkflows (query options c)) st
      = (Success (WorkflowList data next), st') ->
    Js.truthyStr next = false ->
    Pages options st c
      [(GetWorkflows (query options c), Success (WorkflowList data next))]
      [data] st'
| Pages_more st c data next st1 log pages st' :
    serve (GetWorkflows (query options c)) st
      = (Success (WorkflowList data next), st1) ->
    Js.truthyStr next = true ->
    Pages options st1 next log pages st' ->
    Pages options st c
      ((GetWorkflows (query options c), Success (WorkflowList data next)) :: log)
      (data :: pages) st'.

Lemma Pages_length options st c log pages st' :
  Pages options st c log pages st' -> List.length log = List.length pages.
Proof. induction 1; simpl; auto. Qed.

Lemma listWorkflowsLoop_pages options st c log pages st' :
  Pages options st c log pages st' ->
  Js.truthyNum (limit options) = false ->
  forall fuel acc,
    List.length pages <= fuel ->
    listWorkflowsLoop fuel options c acc st
      = (Done (acc ++ List.concat pages), st', log).
Proof.
  intros HP Hlimit.
  induction HP as [st c data next st' Hs Hn|st c data next st1 log pages st' Hs Hn HP IH];
    intros fuel acc Hfuel.
  - destruct fuel as [|fuel]; [simpl in Hfuel; lia|].
    cbn [Client.listWorkflowsLoop]. unfold bind, request. rewrite Hs.
    rewrite Hlimit, Hn. simpl. now rewrite List.app_nil_r.
  - destruct fuel as [|fuel]; [simpl in Hfuel; lia|].
    cbn [Client.listWorkflowsLoop]. unfold bind, request. rewrite Hs.
    rewrite Hlimit, Hn. rewrite (IH fuel (acc ++ data)) by (simpl in Hfuel; lia).
    simpl. now rewrite <- List.app_assoc.
Qed.

(** [C3], as amended: with a limit other than 0, [listWorkflows] issues
    exactly one page request and returns that page, whatever next cursor the
    server reports; with no limit, or the limit 0, it requests page after
    page, each with the cursor the server returned, until a page comes
    without a (non-empty) cursor, and returns the pages' data concatenated
    in order. *)
Theorem listWorkflows_pagination (options : ListWorkflowsOptions) (st : ServerState) :
  (Js.truthyNum (limit options) = true ->
   forall fuel, 1 <= fuel ->
     let first := GetWorkflows (query options (cursor options)) in
     snd (listWorkflows fuel options st) = [(first, fst (serve first st))] /\
     forall data next,
       fst (serve first st) = Success (WorkflowList data next) ->
       fst (fst (listWorkflows fuel options st)) = Done data) /\
  (Js.truthyNum (limit options) = false ->
   forall log pages st' fuel,
     Pages options st (cursor options) log pages st' ->
     List.length pages <= fuel ->
     listWorkflows fuel options st = (Done (List.concat pages), st', log) /\
     List.length log = List.length pages).
Proof.
  split.
  - intros Hlimit fuel Hfuel first. destruct fuel as [|fuel]; [lia|].
    unfold Client.listWorkflows. cbn [Client.listWorkflowsLoop].
    unfold bind, request. fold first.
    destruct (serve first st) as [[body|msg code] st1] eqn:E; simpl.
    + split.
      * destruct body; simpl; try reflexivity. now rewrite Hlimit.
      * intros data next [= ->]. now rewrite Hlimit.
    + split; [reflexivity|]. intros data next Hd. discriminate.
  - intros Hlimit log pages st' fuel HP Hfuel. split.
    + apply (listWorkflowsLoop_pages _ _ _ _ _ _ HP Hlimit fuel [] Hfuel).
    + apply (Pages_length _ _ _ _ _ _ HP).
Qed.

End Server.
(** *** The scenarios of the test-suite, on the scripted server *)

Definition mockTag (id name : string) : N8nTag :=
  {| tag_id := id; tag_name := name; tag_createdAt := None; tag_updatedAt := None |}.

Definition mockWorkflow (id name : string) (tags' : option (list N8nTag)) : N8nWorkflow :=
  {| wf_id := Some id; wf_name := name; active := Some false; nodes := [];
     connections := JObj []; settings := None; staticData := None;
     tags := tags'; wf_createdAt := None; wf_updatedAt := None |}.

Definition noOptions : ListWorkflowsOptions :=
  {| opt_active := None; opt_tags := None; limit := None; cursor := None |}.

Definition withLimit (n : Z) : ListWorkflowsOptions :=
  {| opt_active := None; opt_tags := None; limit := Some n; cursor := None |}.

(** A server with two pages of one workflow each. *)
Definition twoPages : list Reply :=
  [ Success (WorkflowList [mockWorkflow "123" "Test Workflow" None] (Some "cursor1"));
    Success (WorkflowList [mockWorkflow "456" "Second Workflow" None] None) ].

(** [C3] as the specification words it fails for the limit 0: the limit
    is supplied, yet it is neither sent nor does it stop the pagination, and
    two page requests are issued against a two-page server. *)
Lemma listWorkflows_limit_zero_paginates :
  ~ (forall (ServerState : Type) (serve : Request -> ServerState -> Reply * ServerState)
            (options : ListWorkflowsOptions) (st : ServerState) (fuel : nat),
       limit options <> None -> 1 <= fuel ->
       List.length (snd (Client.listWorkflows ServerState serve fuel options st)) = 1).
Proof.
  intros H.
  specialize (H (list Reply) scripted (withLimit 0) twoPages 5
                ltac:(discriminate) ltac:(lia)).
  vm_compute in H. discriminate.
Qed.

Lemma twoPages_conversation :
  Pages (list Reply) scripted noOptions twoPages None
    [ (GetWorkflows [],
       Success (WorkflowList [mockWorkflow "123" "Test Workflow" None] (Some "cursor1")));
      (GetWorkflows [("cursor", "cursor1")],
       Success (WorkflowList [mockWorkflow "456" "Second Workflow" None] None)) ]
    [ [mockWorkflow "123" "Test Workflow" None];
      [mockWorkflow "456" "Second Workflow" None] ]
    [].
Proof.
  eapply (Pages_more _ _ noOptions twoPages None); [reflexivity|reflexivity|].
  eapply (Pages_last _ _ noOptions _ (Some "cursor1")); reflexivity.
Qed.

(** The two listing scenarios of the test-suite: [{limit: 1}] against a
    server that reports a next cursor, and no limit against two pages. *)
Lemma listWorkflows_pagination_witness :
  snd (Client.listWorkflows (list Reply) scripted 1 (withLimit 1) twoPages)
    = [ (GetWorkflows [("limit", "1")],
         Success (WorkflowList [mockWorkflow "123" "Test Workflow" None] (Some "cursor1"))) ]
  /\
  fst (fst (Client.listWorkflows (list Reply) scripted 2 noOptions twoPages))
    = Done [mockWorkflow "123" "Test Workflow" None;
            mockWorkflow "456" "Second Workflow" None].
Proof.
  split.
  - destruct (listWorkflows_pagination (list Reply) scripted (withLimit 1) twoPages)
      as [Hone _].
    exact (proj1 (Hone eq_refl 1 (le_n 1))).
  - destruct (listWorkflows_pagination (list Reply) scripted noOptions twoPages)
      as [_ Hall].
    destruct (Hall eq_refl _ _ _ 2 twoPages_conversation (le_n 2)) as [Hrun _].
    rewrite Hrun. reflexivity.
Defined.

(** Deploying [daily-backup] to a server that has neither management tag:
    the replies to list, create, list, create, get workflow, set tags. *)
Definition taggingReplies : list Reply :=
  [ Success (TagList [mockTag "9" "nightly"]);
    Success (Tag (mockTag "10" "managed-by:cron8n"));
    Success (TagList [mockTag "9" "nightly"; mockTag "10" "managed-by:cron8n"]);
    Success (Tag (mockTag "11" "cron8n:daily-backup"));
    Success (Workflow (mockWorkflow "42" "Daily Backup" (Some [mockTag "9" "nightly"])));
    Success OtherBody ].

Definition managementTags : list string :=
  [ "managed-by:cron8n"; "cron8n:daily-backup" ].

Example addTagsToWorkflow_run :
  snd (Client.addTagsToWorkflow (list Reply) scripted "42" managementTags taggingReplies)
  = [ (GetTags, Success (TagList [mockTag "9" "nightly"]));
      (PostTag "managed-by:cron8n", Success (Tag (mockTag "10" "managed-by:cron8n")));
      (GetTags, Success (TagList [mockTag "9" "nightly"; mockTag "10" "managed-by:cron8n"]));
      (PostTag "cron8n:daily-backup", Success (Tag (mockTag "11" "cron8n:daily-backup")));
      (GetWorkflow "42",
       Success (Workflow (mockWorkflow "42" "Daily Backup" (Some [mockTag "9" "nightly"]))));
      (PutWorkflowTags "42" ["9"; "10"; "11"], Success OtherBody) ].
Proof. reflexivity. Qed.

(** [C1] as the specification words it fails: for two desired names the
    client lists the tags twice, not once. *)
Lemma addTagsToWorkflow_lists_per_name :
  ~ (forall (ServerState : Type) (serve : Request -> ServerState -> Reply * ServerState)
            (workflowId : string) (tagNames : list string) (st st' : ServerState)
            (log : list Exchange),
       Client.addTagsToWorkflow ServerState serve workflowId tagNames st
         = (Done tt, st', log) ->
       countTagLists log = 1).
Proof.
  intros H.
  specialize (H (list Reply) scripted "42" managementTags taggingReplies _ _ eq_refl).
  vm_compute in H. discriminate.
Qed.

Lemma addTagsToWorkflow_requests_witness :
  exists st' log,
    Client.addTagsToWorkflow (list Reply) scripted "42" managementTags taggingReplies
      = (Done tt, st', log) /\
    countTagLists log = 2.
Proof.
  eexists. eexists. split; [reflexivity|].
  destruct (addTagsToWorkflow_requests (list Reply) scripted "42" managementTags
              taggingReplies _ _ eq_refl)
    as (resolving & ids & workflow & reply & _ & _ & Hcount & _).
  exact Hcount.
Defined.

End ClientFacts.

(** ** Cron expressions *)

Module CronFacts.
Import Cron.

Section CronParser.
Variable Interval : Type.
Variable parseExpression : string -> string -> Z -> Interval + Raised.
Variable next : Interval -> (Z * Interval) + Raised.

(** The contract of the cron-parser package: an iterator has a current date,
    which is the date it was built for; [next] yields a date strictly after
    the current one and moves the iterator to it; the errors the package
    raises carry a message. *)
Variable current : Interval -> Z.
Hypothesis parse_current :
  forall e tz now interval,
    parseExpression e tz now = inl interval -> current interval = now.
Hypothesis next_later :
  forall interval date interval',
    next interval = inl (date, interval') ->
    (current interval < date)%Z /\ current interval' = date.
Hypothesis parse_message :
  forall e tz now message,
    parseExpression e tz now = inr (RaisedError message) -> message <> "".
Hypothesis next_message :
  forall interval message,
    next interval = inr (RaisedError message) -> message <> "".

#[local] Abbreviation collect := (Cron.collect Interval next).
#[local] Abbreviation parseCron := (Cron.parseCron Interval parseExpression next).






Lemma collect_raises count :
  forall interval acc e,
    collect count interval acc = inr e -> errorText e <> "".
Proof.
  induction count as [|n IH]; intros interval acc e H; [discriminate|].
  cbn [Cron.collect] in H.
  destruct (next interval) as [[date interval']|e'] eqn:E.
  - apply (IH _ _ _ H).
  - injection H as <-. destruct e' as [message|]; simpl.
    + apply (next_message _ _ E).
    + discriminate.
Qed.

End CronParser.

(** A small cron library that keeps the contract: it accepts the
    every-minute expression only, and iterates over the full minutes. *)
Definition minuteParse (e tz : string) (now : Z) : Z + Raised :=
  if String.eqb e "* * * * *" then inl now
  else inr (RaisedError ("Invalid cron expression: " ++ e)).

Definition minuteNext (interval : Z) : (Z * Z) + Raised :=
  let date := ((interval / 60000 + 1) * 60000)%Z in
  inl (date, date).



Lemma minuteParse_message e tz now message :
  minuteParse e tz now = inr (RaisedError message) -> message <> "".
Proof.
  unfold minuteParse. destruct (String.eqb e "* * * * *"); [discriminate|].
  intros [= <-]. discriminate.
Qed.

Lemma minuteNext_message interval message :
  minuteNext interval = inr (RaisedError message) -> message <> "".
Proof. discriminate. Qed.


End CronFacts.

(* ================================================================== *)
(** * Further properties *)
(* ================================================================== *)

(** ** Slugs: what [createSlug] yields and what [isValidSlug] accepts *)

Module SlugFacts.

Lemma lowerAlnum_of_lower c : Slug.isLowerAlnum (Js.toLowerChar c) = Slug.isAlnum c.
Proof. all_chars c. Qed.

Lemma slugChar_lower c : slugChar c = true -> Js.toLowerChar c = c.
Proof. all_chars c. Qed.

Lemma slugChar_not_space c : slugChar c = true -> Js.isSpace c = false.
Proof. all_chars c. Qed.

Lemma slugChar_kept c : slugChar c = true -> Slug.keptChar c = true.
Proof. all_chars c. Qed.

Lemma slugChar_not_sep c : slugChar c = true -> Slug.isSpaceOrUnderscore c = false.
Proof. all_chars c. Qed.

Lemma hyphen_char c : Js.isHyphen c = true -> c = "-"%char.
Proof. all_chars c. Qed.

Lemma hyphen_eqb c : Ascii.eqb "-" c = Js.isHyphen c.
Proof. all_chars c. Qed.

Lemma slugChar_hyphen c :
  slugChar c = true -> Slug.isLowerAlnum c = false -> Js.isHyphen c = true.
Proof. all_chars c. Qed.

Lemma existsb_lower x :
  Js.existsb Slug.isLowerAlnum (Js.toLowerCase x) = Js.existsb Slug.isAlnum x.
Proof.
  induction x as [|c r IH]; simpl; [reflexivity|].
  now rewrite lowerAlnum_of_lower, IH.
Qed.

Section Absent.
Variables p q : ascii -> bool.

Lemma absent_filter s : Js.existsb q s = false -> Js.existsb q (Js.filter p s) = false.
Proof.
  induction s as [|c r IH]; simpl; auto.
  intros H. apply orb_false_iff in H as [Hc Hr].
  destruct (p c); simpl; auto. rewrite Hc. auto.
Qed.

Lemma absent_dropWhile s :
  Js.existsb q s = false -> Js.existsb q (Js.dropWhile p s) = false.
Proof.
  induction s as [|c r IH]; simpl; auto.
  intros H. apply orb_false_iff in H as [Hc Hr].
  destruct (p c); simpl; auto. rewrite Hc. auto.
Qed.

Lemma absent_dropWhileEnd s :
  Js.existsb q s = false -> Js.existsb q (Js.dropWhileEnd p s) = false.
Proof.
  induction s as [|c r IH]; simpl; auto.
  intros H. apply orb_false_iff in H as [Hc Hr].
  destruct (p c && Js.isEmpty (Js.dropWhileEnd p r)); simpl; auto.
  rewrite Hc. auto.
Qed.

Lemma absent_replaceRuns b s :
  q "-"%char = false ->
  Js.existsb q s = false -> Js.existsb q (Js.replaceRuns p b s) = false.
Proof.
  intros Hq. revert b. induction s as [|c r IH]; simpl; auto.
  intros b H. apply orb_false_iff in H as [Hc Hr].
  destruct (p c); [destruct b|]; simpl; rewrite ?Hq, ?Hc; simpl; auto.
Qed.

(** The steps of [createSlug] leave a string alone that holds none of the
    characters they look for. *)
Lemma dropWhile_none s : Js.existsb p s = false -> Js.dropWhile p s = s.
Proof. destruct s; simpl; auto. intros H. apply orb_false_iff in H as [-> _]. auto. Qed.

Lemma dropWhileEnd_none s : Js.existsb p s = false -> Js.dropWhileEnd p s = s.
Proof.
  induction s as [|c r IH]; simpl; auto.
  intros H. apply orb_false_iff in H as [-> Hr]. simpl. now rewrite IH.
Qed.

Lemma replaceRuns_none b s : Js.existsb p s = false -> Js.replaceRuns p b s = s.
Proof.
  revert b. induction s as [|c r IH]; simpl; auto.
  intros b H. apply orb_false_iff in H as [-> Hr]. now rewrite IH.
Qed.

Lemma filter_all s : Js.forallb p s = true -> Js.filter p s = s.
Proof.
  induction s as [|c r IH]; simpl; auto.
  intros H. apply andb_true_iff in H as [-> Hr]. now rewrite IH.
Qed.

Lemma forallb_absent s :
  (forall c, p c = true -> q c = false) ->
  Js.forallb p s = true -> Js.existsb q s = false.
Proof.
  intros Hpq. induction s as [|c r IH]; simpl; auto.
  intros H. apply andb_true_iff in H as [Hc Hr]. now rewrite (Hpq _ Hc), IH.
Qed.

Lemma forallb_weaken s :
  (forall c, p c = true -> q c = true) ->
  Js.forallb p s = true -> Js.forallb q s = true.
Proof.
  intros Hpq. induction s as [|c r IH]; simpl; auto.
  intros H. apply andb_true_iff in H as [Hc Hr]. now rewrite (Hpq _ Hc), IH.
Qed.
End Absent.

(** The last step of [createSlug] and what comes before it. *)
Definition beforeStrip (x : string) : string :=
  Js.replaceRuns Js.isHyphen false
    (Js.replaceRuns Slug.isSpaceOrUnderscore false
       (Js.filter Slug.keptChar (Js.trim (Js.toLowerCase x)))).

Lemma createSlug_strip x :
  Slug.createSlug x
  = Js.dropWhileEnd Js.isHyphen (Js.dropWhile Js.isHyphen (beforeStrip x)).
Proof. reflexivity. Qed.

Lemma beforeStrip_chars x : Js.forallb slugChar (beforeStrip x) = true.
Proof.
  unfold beforeStrip, Js.trim.
  apply forallb_collapse_hyphens, forallb_replace_separators.
  apply forallb_and; [|apply forallb_filter_self].
  apply forallb_filter, forallb_dropWhileEnd, forallb_dropWhile, forallb_toLowerCase.
Qed.

Lemma beforeStrip_alnum x :
  Js.existsb Slug.isLowerAlnum (beforeStrip x) = Js.existsb Slug.isAlnum x.
Proof.
  unfold beforeStrip, Js.trim.
  destruct (Js.existsb Slug.isAlnum x) eqn:E.
  - apply existsb_replaceRuns; [exact lowerAlnum_not_hyphen|].
    apply existsb_replaceRuns; [exact lowerAlnum_not_sep|].
    apply existsb_filter_keep; [exact lowerAlnum_kept|].
    apply existsb_dropWhileEnd, existsb_dropWhile;
      auto using lowerAlnum_not_space, existsb_toLowerCase.
  - apply absent_replaceRuns; [reflexivity|].
    apply absent_replaceRuns; [reflexivity|].
    apply absent_filter, absent_dropWhileEnd, absent_dropWhile.
    now rewrite existsb_lower.
Qed.

Lemma dropWhile_all_hyphens s :
  Js.forallb slugChar s = true -> Js.existsb Slug.isLowerAlnum s = false ->
  Js.dropWhile Js.isHyphen s = "".
Proof.
  induction s as [|c r IH]; simpl; auto.
  intros Ha He. apply andb_true_iff in Ha as [Hc Hr].
  apply orb_false_iff in He as [Hn He].
  rewrite (slugChar_hyphen _ Hc Hn). auto.
Qed.

(** A string with an alphanumeric character gives a slug that matches the
    pattern. *)
Lemma createSlug_matches x :
  Js.existsb Slug.isAlnum x = true -> Slug.isValidSlug (Slug.createSlug x) = true.
Proof.
  intros Hx. unfold Slug.isValidSlug. rewrite createSlug_strip.
  apply matchSlug_dropWhileEnd.
  - apply forallb_dropWhile, beforeStrip_chars.
  - apply singleHyphens_dropWhile. apply singleHyphens_collapse.
  - intros _. apply startsLower_dropWhile; [apply beforeStrip_chars|].
    now rewrite beforeStrip_alnum.
Qed.


(** What the pattern of [isValidSlug] says of a string. *)
Fixpoint endsWithHyphen (s : string) : bool :=
  match s with
  | EmptyString => false
  | String c EmptyString => Js.isHyphen c
  | String _ r => endsWithHyphen r
  end.

Lemma matchSlug_chars g s : Slug.matchSlug g s = true -> Js.forallb slugChar s = true.
Proof.
  revert g. induction s as [|c r IH]; simpl; auto. intros g. unfold slugChar.
  destruct (Slug.isLowerAlnum c); simpl; [apply IH|].
  destruct (Js.isHyphen c); simpl; [|discriminate].
  destruct g; simpl; [apply IH|discriminate].
Qed.

Lemma matchSlug_single g s :
  Slug.matchSlug g s = true -> singleHyphens (negb g) s = true.
Proof.
  revert g. induction s as [|c r IH]; simpl; auto. intros g.
  destruct (Slug.isLowerAlnum c) eqn:L.
  - rewrite (lowerAlnum_not_hyphen _ L), andb_false_r. simpl. apply (IH true).
  - destruct (Js.isHyphen c); simpl; [|discriminate].
    destruct g; simpl; [apply (IH false)|discriminate].
Qed.

Lemma matchSlug_end g s : Slug.matchSlug g s = true -> endsWithHyphen s = false.
Proof.
  revert g. induction s as [|c r IH]; auto. intros g H. cbn [Slug.matchSlug] in H.
  destruct (Slug.isLowerAlnum c) eqn:L.
  - destruct r; [simpl; apply (lowerAlnum_not_hyphen _ L)|apply (IH _ H)].
  - destruct (Js.isHyphen c && g); [|discriminate].
    destruct r; [discriminate H|apply (IH _ H)].
Qed.

Lemma matchSlug_start s : Slug.matchSlug false s = true -> startsLower s = true.
Proof.
  destruct s as [|c r]; simpl; [discriminate|].
  destruct (Slug.isLowerAlnum c); auto. rewrite andb_false_r. discriminate.
Qed.

Lemma shape_matches s g :
  Js.forallb slugChar s = true -> singleHyphens (negb g) s = true ->
  endsWithHyphen s = false -> (g = false -> s <> "") ->
  Slug.matchSlug g s = true.
Proof.
  revert g. induction s as [|c r IH]; intros g Hc Hs He Hn.
  - destruct g; [reflexivity|]. now destruct (Hn eq_refl).
  - simpl in Hc. apply andb_true_iff in Hc as [Hc Hr].
    simpl in Hs. apply andb_true_iff in Hs as [Hg Hs]. cbn [Slug.matchSlug].
    destruct (Slug.isLowerAlnum c) eqn:L.
    + rewrite (lowerAlnum_not_hyphen _ L) in Hs. apply IH; auto.
      * destruct r; [reflexivity|exact He].
      * discriminate.
    + pose proof (slugChar_hyphen _ Hc L) as E. rewrite E in Hs, Hg |- *.
      destruct g; [|discriminate]. simpl.
      apply IH; auto.
      * destruct r; [simpl in He; congruence|exact He].
      * intros _ ->. simpl in He. congruence.
Qed.

(** [X2] [isValidSlug] accepts exactly the non-empty strings over
    [a-z0-9-] that neither start nor end with a hyphen and have no two
    hyphens in a row. *)
Theorem isValidSlug_shape (s : string) :
  Slug.isValidSlug s = true <->
  s <> "" /\ Js.forallb slugChar s = true /\
  Js.startsWith "-" s = false /\ endsWithHyphen s = false /\
  Js.includes s "--" = false.
Proof.
  unfold Slug.isValidSlug.
  assert (Hdouble : forall t b,
            singleHyphens b t = true <->
            (b = true -> Js.startsWith "-" t = false) /\ Js.includes t "--" = false).
  { induction t as [|c r IH]; intros b.
    - simpl. split; auto.
    - change (singleHyphens b (String c r))
        with (negb (b && Js.isHyphen c) && singleHyphens (Js.isHyphen c) r).
      change (Js.startsWith "-" (String c r)) with (Ascii.eqb "-" c && true).
      change (Js.includes (String c r) "--")
        with ((Ascii.eqb "-" c && Js.startsWith "-" r) || Js.includes r "--").
      rewrite andb_true_iff, IH, hyphen_eqb.
      destruct (Js.isHyphen c), b, (Js.startsWith "-" r), (Js.includes r "--");
        simpl; intuition congruence. }
  split.
  - intros H. pose proof (matchSlug_chars _ _ H) as Hc.
    pose proof (proj1 (Hdouble s true) (matchSlug_single _ _ H)) as [Hst Hin].
    repeat split; auto.
    + intros ->. discriminate H.
    + apply (matchSlug_end _ _ H).
  - intros (Hn & Hc & Hst & He & Hin). apply shape_matches; auto.
    apply (Hdouble s true). auto.
Qed.

Lemma createSlug_fixed (s : string) :
  Slug.isValidSlug s = true -> Slug.createSlug s = s.
Proof.
  unfold Slug.isValidSlug. intros H.
  pose proof (matchSlug_chars _ _ H) as Hc.
  assert (Hlow : Js.toLowerCase s = s).
  { clear H. induction s as [|c r IH]; simpl; auto. simpl in Hc.
    apply andb_true_iff in Hc as [Hc Hr]. now rewrite (slugChar_lower _ Hc), IH. }
  assert (Hsp : Js.existsb Js.isSpace s = false)
    by (apply (forallb_absent slugChar); auto using slugChar_not_space).
  assert (Hsep : Js.existsb Slug.isSpaceOrUnderscore s = false)
    by (apply (forallb_absent slugChar); auto using slugChar_not_sep).
  assert (Hkept : Js.forallb Slug.keptChar s = true)
    by (apply (forallb_weaken slugChar); auto using slugChar_kept).
  assert (Hcol : forall t b, singleHyphens b t = true -> Js.replaceRuns Js.isHyphen b t = t).
  { induction t as [|c r IH]; simpl; auto. intros b Hs.
    apply andb_true_iff in Hs as [Hb Hs]. destruct (Js.isHyphen c) eqn:E.
    - destruct b; [discriminate|]. now rewrite (hyphen_char _ E), IH.
    - now rewrite IH. }
  assert (Hend : forall t g, Slug.matchSlug g t = true -> Js.dropWhileEnd Js.isHyphen t = t).
  { induction t as [|c r IH]; auto. intros g Hm. cbn [Slug.matchSlug] in Hm.
    cbn [Js.dropWhileEnd]. destruct (Slug.isLowerAlnum c) eqn:L.
    - rewrite (lowerAlnum_not_hyphen _ L). simpl. now rewrite (IH _ Hm).
    - destruct (Js.isHyphen c && g); [|discriminate]. rewrite (IH _ Hm).
      destruct r; [discriminate Hm|]. now rewrite andb_false_r. }
  unfold Slug.createSlug, Js.trim. rewrite Hlow.
  rewrite (dropWhile_none _ _ Hsp), (dropWhileEnd_none _ _ Hsp).
  rewrite (filter_all _ _ Hkept), (replaceRuns_none _ _ _ Hsep).
  rewrite (Hcol s false)
    by (apply (singleHyphens_weaken true), (matchSlug_single false), H).
  pose proof (matchSlug_start _ H) as Hst.
  assert (Js.dropWhile Js.isHyphen s = s) as ->.
  { destruct s as [|c r]; auto. simpl in *. now rewrite (lowerAlnum_not_hyphen _ Hst). }
  apply (Hend _ _ H).
Qed.

(** [X3] A valid slug is a fixed point of [createSlug]: the generator
    changes nothing the validator accepts. *)
Theorem createSlug_of_valid (s : string) :
  Slug.isValidSlug s = true -> Slug.createSlug s = s.
Proof. apply createSlug_fixed. Qed.

Lemma createSlug_of_valid_witness :
  Slug.isValidSlug "my-workflow-123" = true /\
  Slug.createSlug "my-workflow-123" = "my-workflow-123".
Proof.
  split; [reflexivity|]. apply (createSlug_of_valid "my-workflow-123"). reflexivity.
Defined.

(** [X4] [createSlug] is idempotent. *)
Theorem createSlug_idempotent (x : string) :
  Slug.createSlug (Slug.createSlug x) = Slug.createSlug x.
Proof.
  destruct (Js.existsb Slug.isAlnum x) eqn:E.
  - apply createSlug_fixed, createSlug_matches, E.
  - assert (H0 : Slug.createSlug x = "").
    { rewrite createSlug_strip, dropWhile_all_hyphens; auto using beforeStrip_chars.
      now rewrite beforeStrip_alnum. }
    rewrite H0. reflexivity.
Qed.

End SlugFacts.

(** ** The registry: lookups after the writing operations *)

Module RegistryLookups.
Import Registry RegistryFacts.

Section Find.
Context {A : Type} (p : A -> bool).

Lemma find_swap (l1 l2 : list A) (old new : A) :
  p old = false -> p new = false ->
  List.find p (l1 ++ new :: l2) = List.find p (l1 ++ old :: l2).
Proof.
  intros Ho Hn. induction l1 as [|x r IH]; simpl.
  - now rewrite Ho, Hn.
  - now rewrite IH.
Qed.

Lemma find_snoc (l : list A) (new : A) :
  p new = false -> List.find p (l ++ [new]) = List.find p l.
Proof.
  intros Hn. induction l as [|x r IH]; simpl.
  - now rewrite Hn.
  - now rewrite IH.
Qed.

Lemma find_filter (q : A -> bool) (l : list A) :
  (forall x, p x = true -> q x = true) ->
  List.find p (List.filter q l) = List.find p l.
Proof.
  intros Hpq. induction l as [|x r IH]; simpl; auto.
  destruct (p x) eqn:Ep.
  - rewrite (Hpq _ Ep). simpl. now rewrite Ep.
  - destruct (q x); simpl; [rewrite Ep|]; exact IH.
Qed.

Lemma filter_swap (l1 l2 : list A) (old new : A) :
  p old = p new ->
  List.length (List.filter p (l1 ++ new :: l2))
  = List.length (List.filter p (l1 ++ old :: l2)).
Proof.
  intros H. rewrite !List.filter_app, !List.length_app. simpl. rewrite H.
  destruct (p new); reflexivity.
Qed.
End Find.

Lemma hasIdentity_other s p s' p' w :
  (s', p') <> (s, p) -> hasIdentity s p w = true -> hasIdentity s' p' w = false.
Proof.
  intros Hne H. destruct (hasIdentity s' p' w) eqn:E; auto.
  destruct (hasIdentity_same _ _ _ _ _ H E) as [-> ->]. now destruct Hne.
Qed.

(** [X5] An upsert does not touch the other identities: looking up any
    other ([slug], [projectPath]) gives what it gave before. *)
Theorem upsertRegistryEntry_frame
  (file : RegistryFile) (entry : NewEntry) (now slug' projectPath' : string) :
  (slug', projectPath') <> (new_slug entry, new_projectPath entry) ->
  getEntry slug' projectPath' (upsertRegistryEntry entry now file)
  = getEntry slug' projectPath' file.
Proof.
  intros Hne. pose proof (upsert_shape entry now file) as H.
  unfold getEntry. unfold getAllEntries in H.
  pose proof (hasIdentity_other _ _ _ _ (stamped entry now) Hne
                (hasIdentity_stamped entry now)) as Hnew.
  destruct H as [(l1 & old & l2 & E & Hold & _ & ->)|(_ & ->)].
  - rewrite E. apply find_swap; auto. apply (hasIdentity_other _ _ _ _ old Hne Hold).
  - now apply find_snoc.
Qed.

Lemma upsertRegistryEntry_frame_witness :
  getEntry "daily-backup" "/srv/a"
    (upsertRegistryEntry (sampleNew "m2" (Some "42")) "2024-05-02T10:00:00.000Z" sampleFile)
  = Some (sampleEntry "daily-backup" "/srv/a").
Proof.
  rewrite (upsertRegistryEntry_frame sampleFile (sampleNew "m2" (Some "42"))
             "2024-05-02T10:00:00.000Z" "daily-backup" "/srv/a");
    [reflexivity|discriminate].
Defined.

(** [X6] An upsert adds one entry when the identity is new and none when
    it is known, and repeating it with the same entry and time changes
    nothing more. *)
Theorem upsertRegistryEntry_length_idempotent
  (file : RegistryFile) (entry : NewEntry) (now : string) :
  List.length (getAllEntries (upsertRegistryEntry entry now file))
  = List.length (getAllEntries file)
    + (match getEntry (new_slug entry) (new_projectPath entry) file with
       | Some _ => 0
       | None => 1
       end) /\
  upsertRegistryEntry entry now (upsertRegistryEntry entry now file)
  = upsertRegistryEntry entry now file.
Proof.
  split.
  - pose proof (upsert_shape entry now file) as H.
    unfold getEntry. unfold getAllEntries in *.
    destruct H as [(l1 & old & l2 & E & Hold & Hl1 & ->)|(Habs & ->)].
    + rewrite E, (find_first _ _ _ _ Hl1 Hold), !List.length_app. simpl. lia.
    + rewrite (find_absent _ _ Habs), List.length_app. simpl. lia.
  - set (f1 := upsertRegistryEntry entry now file).
    pose proof (upsert_shape entry now file) as H.
    pose proof (upsert_shape entry now f1) as H2.
    unfold getAllEntries in *. fold f1 in H.
    assert (Hst : forall f, upsertRegistryEntry entry now f
                            = Stored (loadRegistry (upsertRegistryEntry entry now f))).
    { intros f. unfold upsertRegistryEntry.
      destruct (0 <=? _)%Z; reflexivity. }
    rewrite (Hst f1). transitivity (Stored (loadRegistry f1)); [|symmetry; apply Hst].
    f_equal.
    destruct (loadRegistry (upsertRegistryEntry entry now f1)) as [w2].
    destruct (loadRegistry f1) as [w1].
    simpl in *. f_equal.
    assert (Hin : exists l1 l2, w1 = l1 ++ stamped entry now :: l2 /\
              Forall (fun w => hasIdentity (new_slug entry) (new_projectPath entry) w = false) l1).
    { destruct H as [(l1 & old & l2 & _ & _ & Hl1 & ->)|(Habs & ->)].
      - exists l1, l2. auto.
      - exists (workflows (loadRegistry file)), []. auto. }
    destruct Hin as (l1 & l2 & -> & Hl1).
    destruct H2 as [(l1' & old & l2' & E & Hold & Hl1' & ->)|(Habs & _)].
    + assert (Heq : l1' = l1 /\ old = stamped entry now /\ l2' = l2).
      { clear - E Hold Hl1 Hl1'. revert l1' E Hl1'.
        induction Hl1 as [|x r Hx _ IH]; intros l1' E Hl1'.
        - destruct l1' as [|y r']; simpl in E.
          + now injection E as <- <-.
          + injection E as <- _. inversion Hl1'; subst.
            rewrite hasIdentity_stamped in *. discriminate.
        - destruct l1' as [|y r']; simpl in E.
          + injection E as <- _. congruence.
          + injection E as <- E. inversion Hl1'; subst.
            destruct (IH _ E H2) as (-> & ? & ?). auto. }
      destruct Heq as (-> & -> & ->). reflexivity.
    + exfalso. apply List.Forall_app in Habs as [_ Habs]. inversion Habs; subst.
      rewrite hasIdentity_stamped in *. discriminate.
Qed.

(** [X7] After [removeRegistryEntry] no entry of the identity is left,
    whatever the registry held; the other identities are found as before;
    and removing once more returns false and leaves the file as it is. *)
Theorem removeRegistryEntry_lookup
  (file : RegistryFile) (slug' projectPath' : string) :
  let after := snd (removeRegistryEntry slug' projectPath' file) in
  getEntry slug' projectPath' after = None /\
  (forall s p, (s, p) <> (slug', projectPath') -> getEntry s p after = getEntry s p file) /\
  removeRegistryEntry slug' projectPath' after = (false, after).
Proof.
  intros after.
  assert (Hload : getAllEntries after
                  = List.filter (fun w => negb (hasIdentity slug' projectPath' w))
                      (getAllEntries file)).
  { unfold after, removeRegistryEntry, getAllEntries.
    set (l := workflows (loadRegistry file)).
    pose proof (filter_split (hasIdentity slug' projectPath') l) as Hs.
    destruct (Nat.ltb_spec
      (List.length (List.filter (fun w => negb (hasIdentity slug' projectPath' w)) l))
      (List.length l)) as [Hlt|Hge]; simpl; [reflexivity|].
    fold l. symmetry. clear Hs. revert Hge.
    induction l as [|w r IH]; simpl; auto.
    destruct (hasIdentity slug' projectPath' w); simpl; intros Hge.
    - pose proof (List.filter_length_le
        (fun w => negb (hasIdentity slug' projectPath' w)) r). lia.
    - f_equal. apply IH. lia. }
  assert (Hnone : getEntry slug' projectPath' after = None).
  { unfold getEntry. unfold getAllEntries in Hload. rewrite Hload.
    apply find_absent. apply List.Forall_forall. intros w Hw.
    apply List.filter_In in Hw as [_ Hw]. now apply negb_true_iff in Hw. }
  split; [exact Hnone|]. split.
  - intros s p Hne. unfold getEntry. unfold getAllEntries in Hload. rewrite Hload.
    apply find_filter. intros w Hw. apply negb_true_iff.
    apply (hasIdentity_other s p); [congruence|exact Hw].
  - unfold removeRegistryEntry. unfold getEntry in Hnone.
    apply find_none_absent in Hnone.
    pose proof (filter_split (hasIdentity slug' projectPath')
                  (workflows (loadRegistry after))) as Hs.
    rewrite (filter_absent _ _ Hnone) in Hs. simpl in Hs.
    destruct (Nat.ltb_spec
      (List.length (List.filter (fun w => negb (hasIdentity slug' projectPath' w))
                      (workflows (loadRegistry after))))
      (List.length (workflows (loadRegistry after)))); [lia|reflexivity].
Qed.

(** [X8] After [updateWorkflowId] on a known identity, [getEntry] returns
    the entry with the new workflow id and time, and [getEntryByWorkflowId]
    finds an entry with that id; the other identities are found as before. *)
Theorem updateWorkflowId_lookup
  (file : RegistryFile) (slug' projectPath' workflowId' now : string) (e : RegistryEntry) :
  getEntry slug' projectPath' file = Some e ->
  let after := updateWorkflowId slug' projectPath' workflowId' now file in
  getEntry slug' projectPath' after
    = Some {| slug := slug e; projectPath := projectPath e;
              manifestPath := manifestPath e;
              workflowId := Some workflowId'; lastSyncedAt := Some now |} /\
  (exists found, getEntryByWorkflowId workflowId' after = Some found /\
                 workflowId found = Some workflowId') /\
  (forall s p, (s, p) <> (slug', projectPath') -> getEntry s p after = getEntry s p file).
Proof.
  intros He. cbv zeta. unfold updateWorkflowId, getEntry, getEntryByWorkflowId in *.
  match goal with |- context [updateFirst ?q ?f ?l] =>
    destruct (updateFirst_present q f l e He) as (l1 & l2 & E & Hl1 & ->) end.
  pose proof (List.find_some _ _ He) as [_ Hid]. simpl.
  set (e' := {| slug := slug e; projectPath := projectPath e;
                manifestPath := manifestPath e;
                workflowId := Some workflowId'; lastSyncedAt := Some now |}).
  assert (Hid' : hasIdentity slug' projectPath' e' = true)
    by (rewrite <- Hid; apply hasIdentity_agree; reflexivity).
  split; [apply find_first; auto|]. split.
  - destruct (List.find (hasWorkflowId workflowId') (l1 ++ e' :: l2)) as [found|] eqn:F.
    + exists found. split; auto. apply List.find_some in F as [_ F].
      unfold hasWorkflowId in F. destruct (workflowId found); [|discriminate].
      apply String.eqb_eq in F. now subst.
    + exfalso.
      assert (Hin : In e' (l1 ++ e' :: l2)) by (apply List.in_or_app; right; now left).
      pose proof (List.find_none _ _ F e' Hin) as Hno.
      unfold hasWorkflowId in Hno. simpl in Hno.
      rewrite String.eqb_refl in Hno. discriminate.
  - intros s p Hne. rewrite E. apply find_swap.
    + apply (hasIdentity_other slug' projectPath'); auto.
    + apply (hasIdentity_other slug' projectPath'); auto.
Qed.

Lemma updateWorkflowId_lookup_witness :
  exists found,
    getEntryByWorkflowId "42"
      (updateWorkflowId "daily-backup" "/srv/b" "42" "2024-05-01T10:00:00.000Z" sampleFile)
    = Some found /\ workflowId found = Some "42".
Proof.
  destruct (updateWorkflowId_lookup sampleFile "daily-backup" "/srv/b" "42"
              "2024-05-01T10:00:00.000Z" _ eq_refl) as (_ & Hfound & _).
  exact Hfound.
Defined.

End RegistryLookups.

(** ** Manifests: saving, loading, listing *)

Module ManifestStore.
Import Manifest ManifestFacts.

Lemma parseStrings_map l : parseStrings (List.map JStr l) = Some l.
Proof. induction l as [|x r IH]; simpl; [reflexivity|now rewrite IH]. Qed.

Lemma parseManifest_toJson m : parseManifest (toJson m) = Ok m.
Proof.
  destruct m as [s n c t ce tz tg id at']. unfold parseManifest, toJson.
  destruct id, at'; simpl; rewrite parseStrings_map; reflexivity.
Qed.

Lemma readJson_writeJson path data fs :
  Fs.readJson path (Fs.writeJson path data fs) = Ok data.
Proof. unfold Fs.readJson, Fs.writeJson. now rewrite String.eqb_refl. Qed.

(** [X9] A manifest that was saved loads again, by its slug, as it was:
    [saveManifest] and [loadManifest] are a round trip, whatever the
    directory held before. *)
Theorem loadManifest_saveManifest
  (join : string -> string -> string) (cwd : string) (m : Manifest)
  (basePath : option string) (fs : Fs.FileSystem) :
  parseManifest (toJson m) = Ok m /\
  loadManifest join cwd (slug m) basePath (saveManifest join cwd m basePath fs) = Ok m.
Proof.
  split; [apply parseManifest_toJson|].
  unfold loadManifest, saveManifest. rewrite readJson_writeJson.
  apply parseManifest_toJson.
Qed.

(** The members [ManifestSchema] names. *)
Definition schemaKeys : list string :=
  [ "slug"; "name"; "createdAt"; "template"; "cronExpression"; "timezone";
    "tags"; "lastDeployedWorkflowId"; "lastDeployedAt" ].

(** [X10] [ManifestSchema.parse] reads the members it names and no other:
    a member with any other key changes neither whether a document is
    accepted nor the manifest it gives. *)
Theorem parseManifest_ignores_other_members
  (key : string) (value : Json) (members : list (string * Json)) :
  ~ In key schemaKeys ->
  parseManifest (JObj ((key, value) :: members)) = parseManifest (JObj members).
Proof.
  intros Hk.
  assert (H : forall k, In k schemaKeys -> member k ((key, value) :: members) = member k members).
  { intros k Hin. simpl. destruct (String.eqb_spec key k) as [->|]; [contradiction|reflexivity]. }
  unfold parseManifest.
  rewrite !H by (unfold schemaKeys; simpl; tauto). reflexivity.
Qed.

Lemma parseManifest_ignores_other_members_witness :
  parseManifest backupDocument
  = parseManifest (JObj (("archivedAt", JStr "2024-03-03T00:00:00.000Z")
                           :: match backupDocument with JObj o => o | _ => [] end)).
Proof.
  symmetry.
  apply (parseManifest_ignores_other_members "archivedAt").
  unfold schemaKeys. simpl. intuition discriminate.
Defined.

(** [X11] [updateManifestDeployment] writes nothing when the manifest does
    not load, and otherwise writes the one file of the manifest's slug: all
    other files stay, and loading that slug afterwards gives the manifest it
    returned. *)
Theorem updateManifestDeployment_persists
  (join : string -> string -> string) (cwd slug' workflowId : string)
  (basePath : option string) (now : string) (fs : Fs.FileSystem) :
  let result := updateManifestDeployment join cwd slug' workflowId basePath now fs in
  (forall e, loadManifest join cwd slug' basePath fs = Throw e ->
             result = (Throw e, fs)) /\
  (forall loaded, loadManifest join cwd slug' basePath fs = Ok loaded ->
     exists saved,
       fst result = Ok saved /\
       loadManifest join cwd (slug loaded) basePath (snd result) = Ok saved /\
       lastDeployedWorkflowId saved = Some workflowId /\
       lastDeployedAt saved = Some now /\
       forall path, path <> getManifestPath join cwd (slug loaded) basePath ->
                    snd result path = fs path).
Proof.
  cbv zeta. unfold updateManifestDeployment. split.
  - intros e ->. reflexivity.
  - intros loaded ->. eexists. split; [reflexivity|]. simpl. split; [|split; [|split]].
    + unfold loadManifest, saveManifest. simpl. rewrite readJson_writeJson.
      apply parseManifest_toJson.
    + reflexivity.
    + reflexivity.
    + intros path Hp. unfold saveManifest, Fs.writeJson. simpl.
      destruct (String.eqb_spec path (getManifestPath join cwd (slug loaded) basePath));
        [contradiction|reflexivity].
Qed.

Lemma updateManifestDeployment_persists_witness :
  exists saved,
    loadManifest posixJoin "/srv/a" "daily-backup" None
      (snd (updateManifestDeployment posixJoin "/srv/a" "daily-backup" "42" None
              "2024-05-01T10:00:00.000Z" backupProject)) = Ok saved /\
    lastDeployedWorkflowId saved = Some "42".
Proof.
  destruct (updateManifestDeployment_persists posixJoin "/srv/a" "daily-backup" "42"
              None "2024-05-01T10:00:00.000Z" backupProject) as [_ H].
  destruct (H _ eq_refl) as (saved & _ & Hload & Hid & _).
  exists saved. split; [exact Hload|exact Hid].
Defined.

(** [X12] The loop of [loadAllManifests] never fails: a slug whose
    manifest does not load is passed over as if it were not listed, and the
    manifests that load come out in the order of their slugs. *)
Theorem loadEach_skips
  (join : string -> string -> string) (cwd : string) (basePath : option string)
  (fs : Fs.FileSystem) (before after : list string) (slug' : string) :
  (forall e, loadManifest join cwd slug' basePath fs = Throw e ->
     loadEach join cwd (before ++ slug' :: after) basePath fs
     = loadEach join cwd (before ++ after) basePath fs) /\
  (forall m, loadManifest join cwd slug' basePath fs = Ok m ->
     loadEach join cwd (before ++ slug' :: after) basePath fs
     = loadEach join cwd before basePath fs ++ m :: loadEach join cwd after basePath fs).
Proof.
  split.
  - intros e He. induction before as [|s r IH]; simpl.
    + now rewrite He.
    + destruct (loadManifest join cwd s basePath fs); now rewrite IH.
  - intros m Hm. induction before as [|s r IH]; simpl.
    + now rewrite Hm.
    + destruct (loadManifest join cwd s basePath fs); now rewrite IH.
Qed.

Definition isDot (c : ascii) : bool := Js.code c =? 46.

Lemma not_dot c : isDot c = false -> Ascii.eqb "." c = false.
Proof. all_chars c. Qed.

Lemma endsWith_suffix suffix s : JsText.endsWith suffix (s ++ suffix) = true.
Proof.
  induction s as [|c r IH]; simpl.
  - destruct suffix; simpl; [reflexivity|]. now rewrite Ascii.eqb_refl, String.eqb_refl.
  - rewrite IH. apply orb_true_r.
Qed.

Lemma endsWith_workflow_file s :
  Js.existsb isDot s = false -> JsText.endsWith ".cron8n.json" (s ++ ".json") = false.
Proof.
  induction s as [|c r IH]; [reflexivity|].
  intros H. simpl in H. apply orb_false_iff in H as [Hc Hr].
  change (JsText.endsWith ".cron8n.json" (String c r ++ ".json"))
    with (String.eqb ".cron8n.json" (String c (r ++ ".json"))
          || JsText.endsWith ".cron8n.json" (r ++ ".json")).
  rewrite (IH Hr), orb_false_r.
  change (Ascii.eqb "." c && String.eqb "cron8n.json" (r ++ ".json") = false).
  now rewrite (not_dot _ Hc).
Qed.

Lemma replaceFirst_suffix s :
  Js.existsb isDot s = false ->
  JsText.replaceFirst ".cron8n.json" "" (s ++ ".cron8n.json") = s.
Proof.
  induction s as [|c r IH]; [reflexivity|].
  intros H. simpl in H. apply orb_false_iff in H as [Hc Hr].
  change (String c r ++ ".cron8n.json")%string with (String c (r ++ ".cron8n.json")).
  cbn [JsText.replaceFirst].
  change (Js.startsWith ".cron8n.json" (String c (r ++ ".cron8n.json")))
    with (Ascii.eqb "." c && Js.startsWith "cron8n.json" (r ++ ".cron8n.json")).
  rewrite (not_dot _ Hc). simpl. now rewrite (IH Hr).
Qed.

(** [X13] For slugs without a dot, [listManifests] gives back the slugs
    of the directory: of the two files each workflow has, [<slug>.json] is
    left out and [<slug>.cron8n.json] gives the slug. *)
Theorem manifestSlugs_of_directory (slugs : list string) :
  Forall (fun s => Js.existsb isDot s = false) slugs ->
  Listing.manifestSlugs
    (List.flat_map (fun s => [ (s ++ ".json")%string; (s ++ ".cron8n.json")%string ]) slugs)
  = slugs.
Proof.
  unfold Listing.manifestSlugs.
  induction 1 as [|s r Hs _ IH]; [reflexivity|].
  cbn [List.flat_map List.app List.filter].
  rewrite (endsWith_workflow_file _ Hs), endsWith_suffix.
  cbn [List.map]. now rewrite (replaceFirst_suffix _ Hs), IH.
Qed.

Lemma manifestSlugs_of_directory_witness :
  Listing.manifestSlugs
    [ "daily-backup.json"; "daily-backup.cron8n.json";
      "weekly-report.json"; "weekly-report.cron8n.json" ]
  = [ "daily-backup"; "weekly-report" ].
Proof.
  apply (manifestSlugs_of_directory [ "daily-backup"; "weekly-report" ]).
  repeat constructor.
Defined.

End ManifestStore.

(** ** Discovery: parameters, tags and groups *)

Module DiscoveryFacts.
Import Api JsValue Discovery.

(** [X14] The trigger node the templates build is recognised again: it is
    a cron node, and [extractCronExpression] and [extractTimezone] read back
    the expression and the time zone it was built from (nothing, when that
    one is the empty string). *)
Theorem extract_from_template (node : N8nNode) (cron tz : string) :
  type_ node = Templates.cronNodeType ->
  parameters node = Some (Templates.cronNodeParameters cron tz) ->
  Discover.isCronNode node = true /\
  extractCronExpression node = (if Js.isEmpty cron then None else Some (JStr cron)) /\
  extractTimezone node = (if Js.isEmpty tz then None else Some (JStr tz)).
Proof.
  intros Ht Hp. split; [|split].
  - unfold Discover.isCronNode. rewrite Ht. reflexivity.
  - unfold extractCronExpression. rewrite Hp. destruct cron; reflexivity.
  - unfold extractTimezone. rewrite Hp. destruct tz; reflexivity.
Qed.

Definition templateNode (cron tz : string) : N8nNode :=
  {| node_id := Some "cron-trigger"; node_name := "Schedule Trigger";
     type_ := Templates.cronNodeType; typeVersion := None;
     position := [250%Z; 300%Z];
     parameters := Some (Templates.cronNodeParameters cron tz);
     credentials := None |}.

Lemma extract_from_template_witness :
  extractCronExpression (templateNode "0 0 * * *" "UTC") = Some (JStr "0 0 * * *") /\
  extractTimezone (templateNode "0 0 * * *" "UTC") = Some (JStr "UTC").
Proof.
  destruct (extract_from_template (templateNode "0 0 * * *" "UTC") "0 0 * * *" "UTC"
              eq_refl eq_refl) as (_ & Hc & Hz).
  split; [exact Hc|exact Hz].
Defined.

(** Every branch that returns a value has tested the value's truthiness. *)
Ltac guarded v :=
  repeat (match goal with
          | |- context [if ?b then _ else _] => destruct b eqn:?
          | |- context [match ?x with Some _ => _ | None => _ end] => destruct x eqn:?
          end; cbv beta iota);
  try discriminate;
  let H := fresh in
  intros H; first [injection H as <- | rewrite H in *];
  repeat match goal with
         | Hc : _ && _ = true |- _ => apply andb_true_iff in Hc as [? ?]
         end;
  simpl in *; try assumption; try discriminate.

(** [X15] What [extractCronExpression] and [extractTimezone] return is
    never falsy (never an empty string, null, 0 or false), and a node
    without parameters gives nothing. *)
Theorem extract_truthy (node : N8nNode) :
  (forall v, extractCronExpression node = Some v -> truthy v = true) /\
  (forall v, extractTimezone node = Some v -> truthy v = true) /\
  (parameters node = None ->
   extractCronExpression node = None /\ extractTimezone node = None).
Proof.
  unfold extractCronExpression, extractTimezone, fromRule, fromTriggerTimes.
  split; [|split].
  - intros v. destruct (parameters node) as [params|]; [|discriminate].
    destruct (negb (truthy params)); [discriminate|]. guarded v.
  - intros v. destruct (parameters node) as [params|]; [|discriminate].
    destruct (negb (truthy params)); [discriminate|]. guarded v.
  - intros ->. split; reflexivity.
Qed.

Lemma getCronNodes_trigger (workflow : N8nWorkflow) :
  hasCronTrigger workflow = true <-> getCronNodes workflow <> [].
Proof.
  unfold hasCronTrigger, getCronNodes. rewrite List.existsb_exists. split.
  - intros (node & Hin & Hc) Hnil.
    assert (Hf : In node (List.filter Discover.isCronNode (nodes workflow)))
      by (apply List.filter_In; auto).
    destruct (List.filter Discover.isCronNode (nodes workflow)); [destruct Hf|].
    discriminate Hnil.
  - intros Hne.
    destruct (List.filter Discover.isCronNode (nodes workflow)) as [|node r] eqn:E;
      [now destruct Hne|].
    exists node. apply List.filter_In. rewrite E. now left.
Qed.

(** [X16] A workflow has a cron trigger exactly when [getCronNodes] finds
    a node, and every node found is one of the workflow's nodes that
    [isCronNode] accepts, under its own name and type. *)
Theorem getCronNodes_hasCronTrigger (workflow : N8nWorkflow) :
  (hasCronTrigger workflow = true <-> getCronNodes workflow <> []) /\
  (forall info, In info (getCronNodes workflow) ->
     exists node, In node (nodes workflow) /\ Discover.isCronNode node = true /\
                  nodeName info = node_name node /\ nodeType info = type_ node).
Proof.
  split; [apply getCronNodes_trigger|]. unfold getCronNodes.
  intros info Hin. apply List.in_map_iff in Hin as (node & <- & Hin).
  apply List.filter_In in Hin as [Hin Hc]. exists node. auto.
Qed.

Lemma startsWith_app p x : Js.startsWith p (p ++ x) = true.
Proof. induction p as [|c r IH]; simpl; [reflexivity|]. now rewrite Ascii.eqb_refl. Qed.

Lemma drop_app p x : JsText.drop (String.length p) (p ++ x) = x.
Proof. induction p as [|c r IH]; simpl; [now destruct x|exact IH]. Qed.

Lemma replaceFirst_prefix p x : JsText.replaceFirst p "" (p ++ x) = x.
Proof.
  destruct (p ++ x)%string as [|c r] eqn:E.
  - destruct p; [|discriminate]. simpl in *. now subst.
  - cbn [JsText.replaceFirst]. rewrite <- E, startsWith_app, drop_app. reflexivity.
Qed.

(** [X17] The tags [createTags] gives a workflow lead back to its slug:
    a workflow that carries them, after tags that do not start with
    [cron8n:], is managed, and [getCron8nSlug] and [analyzeWorkflow] report
    the slug. *)
Theorem slug_of_createTags
  (workflow : N8nWorkflow) (slug' : string) (pre post : list N8nTag)
  (sentinel slugTag : N8nTag) :
  tags workflow = Some (pre ++ sentinel :: slugTag :: post) ->
  [tag_name sentinel; tag_name slugTag] = Manifest.createTags slug' ->
  Forall (fun t => Js.startsWith CRON8N_SLUG_TAG_PREFIX (tag_name t) = false) pre ->
  isCron8nManaged workflow = true /\
  getCron8nSlug workflow = Some slug' /\
  isManaged (analyzeWorkflow workflow) = true /\
  managedSlug (analyzeWorkflow workflow) = Some slug'.
Proof.
  intros Ht Hn Hpre. injection Hn as Hs Hg.
  assert (Hm : isCron8nManaged workflow = true).
  { unfold isCron8nManaged. rewrite Ht. apply List.existsb_exists.
    exists sentinel. split; [apply List.in_or_app; right; now left|].
    rewrite Hs. reflexivity. }
  assert (Hslug : getCron8nSlug workflow = Some slug').
  { unfold getCron8nSlug. rewrite Ht.
    assert (Hfind : List.find (fun tag => Js.startsWith CRON8N_SLUG_TAG_PREFIX (tag_name tag))
                      (pre ++ sentinel :: slugTag :: post) = Some slugTag).
    { clear - Hpre Hs Hg. induction Hpre as [|t r Hx _ IH]; cbn [List.app List.find].
      - rewrite Hs, Hg. reflexivity.
      - now rewrite Hx. }
    rewrite Hfind, Hg.
    exact (f_equal Some (replaceFirst_prefix "cron8n:" slug')). }
  unfold analyzeWorkflow. simpl. rewrite Hm. auto.
Qed.

Lemma slug_of_createTags_witness :
  let workflow :=
    {| wf_id := Some "42"; wf_name := "Daily Backup"; active := Some true;
       nodes := []; connections := JObj []; settings := None; staticData := None;
       tags := Some [ ClientFacts.mockTag "9" "nightly";
                      ClientFacts.mockTag "10" "managed-by:cron8n";
                      ClientFacts.mockTag "11" "cron8n:daily-backup" ];
       wf_createdAt := None; wf_updatedAt := None |} in
  managedSlug (analyzeWorkflow workflow) = Some "daily-backup".
Proof.
  intros workflow.
  destruct (slug_of_createTags workflow "daily-backup"
              [ClientFacts.mockTag "9" "nightly"] []
              (ClientFacts.mockTag "10" "managed-by:cron8n")
              (ClientFacts.mockTag "11" "cron8n:daily-backup")
              eq_refl eq_refl ltac:(repeat constructor)) as (_ & _ & _ & H).
  exact H.
Defined.

(** [X18] [groupWorkflows] sorts every workflow with a cron trigger into
    exactly one of its two groups and leaves the others out: the groups
    together are as many as the cron workflows, the managed group holds the
    managed ones only and the unmanaged group none of them, each member has
    a cron node, and only a managed member reports a slug. *)
Theorem groupWorkflows_partition (workflows : list N8nWorkflow) :
  let managed := fst (groupWorkflows workflows) in
  let unmanaged := snd (groupWorkflows workflows) in
  List.length managed + List.length unmanaged
    = List.length (filterCronWorkflows workflows) /\
  Forall (fun info => isManaged info = true) managed /\
  Forall (fun info => isManaged info = false /\ managedSlug info = None) unmanaged /\
  Forall (fun info => cronNodes info <> []) (managed ++ unmanaged) /\
  (forall w, In w workflows -> hasCronTrigger w = true ->
     In (analyzeWorkflow w) (if isCron8nManaged w then managed else unmanaged)).
Proof.
  cbv zeta. unfold groupWorkflows. simpl.
  set (analyzed := List.map analyzeWorkflow (filterCronWorkflows workflows)).
  assert (Hall : Forall (fun info => cronNodes info <> [] /\
                           (isManaged info = false -> managedSlug info = None)) analyzed).
  { apply List.Forall_forall. intros info Hin.
    apply List.in_map_iff in Hin as (w & <- & Hw).
    apply List.filter_In in Hw as [_ Hw]. split.
    - apply (proj1 (getCronNodes_trigger w)). exact Hw.
    - unfold analyzeWorkflow. simpl. now intros ->. }
  split; [|split; [|split; [|split]]].
  - rewrite Nat.add_comm.
    rewrite <- (List.length_map analyzeWorkflow (filterCronWorkflows workflows)).
    fold analyzed. clear. induction analyzed as [|i r IH]; simpl; [reflexivity|].
    destruct (isManaged i); simpl; lia.
  - apply List.Forall_forall. intros info Hin.
    now apply List.filter_In in Hin as [_ Hin].
  - apply List.Forall_forall. intros info Hin.
    apply List.filter_In in Hin as [Hin Hm]. apply negb_true_iff in Hm.
    split; [exact Hm|]. apply (proj1 (List.Forall_forall _ _) Hall info Hin), Hm.
  - apply List.Forall_forall. intros info Hin.
    apply List.in_app_or in Hin as [Hin|Hin]; apply List.filter_In in Hin as [Hin _];
      apply (proj1 (List.Forall_forall _ _) Hall info Hin).
  - intros w Hin Hw.
    assert (Ha : In (analyzeWorkflow w) analyzed).
    { apply List.in_map. apply List.filter_In. auto. }
    destruct (isCron8nManaged w) eqn:E; apply List.filter_In; split; auto.
    unfold analyzeWorkflow. simpl. now rewrite E.
Qed.

End DiscoveryFacts.


(** [X20] [generateSlug(length)] has the length asked for and is made of
    [a-z0-9_-] only: lower-casing removes the capitals of nanoid's alphabet
    and keeps its underscore and hyphen. *)
Theorem generateSlug_chars (length : nat) (random : nat -> Z) :
  String.length (Slug.generateSlug length random) = length /\
  Js.forallb (fun c => Slug.isLowerAlnum c || (Js.code c =? 95) || Js.isHyphen c)
    (Slug.generateSlug length random) = true.
Proof.
  unfold Slug.generateSlug. revert random.
  induction length as [|n IH]; intros random; [split; reflexivity|].
  destruct (IH (fun i => random (S i))) as [Hl Hc]. simpl. rewrite Hl, Hc.
  split; [reflexivity|]. rewrite andb_true_r.
  pose proof (nanoidChar_url (random 0)) as Hu. revert Hu.
  generalize (Slug.nanoidChar (random 0)). intros c. all_chars c.
Qed.

(** ** The stored credentials *)

Module StoreFacts.
Import Store.

(** [X21] What [getAuth] returns after [saveAuth] does not depend on the
    configuration there was: it is the saved credentials when the base URL
    passes the schema's URL check and neither it nor the secret is empty,
    and nothing otherwise.  After [clearAuth] it is nothing. *)
Theorem getAuth_saveAuth
  (isUrl : string -> bool) (credentials : AuthCredentials) (file : ConfigFile) :
  getAuth isUrl (saveAuth isUrl credentials file)
  = (if isUrl (auth_baseUrl credentials)
        && negb (Js.isEmpty (auth_baseUrl credentials))
        && negb (Js.isEmpty (auth_secret credentials))
     then Some credentials else None) /\
  getAuth isUrl (clearAuth isUrl file) = None /\
  isAuthenticated isUrl (clearAuth isUrl (saveAuth isUrl credentials file)) = false.
Proof.
  destruct credentials as [url mode sec]. unfold getAuth, saveAuth, clearAuth,
    isAuthenticated, saveConfig, loadConfig. simpl.
  split; [|split; reflexivity].
  destruct (isUrl url); simpl; [|reflexivity].
  destruct (Js.isEmpty url); simpl; [reflexivity|].
  destruct (Js.isEmpty sec); reflexivity.
Qed.

End StoreFacts.

(** ** The remote client: connection test, tags *)

Module ClientMore.
Import Api Client ClientFacts.

Section Server.
Variable ServerState : Type.
Variable serve : Request -> ServerState -> Reply * ServerState.

(** [X22] [testConnection] never throws: it makes the one request for
    [/workflows?limit=1] and returns true when the server answers it, false
    when the request fails. *)
Theorem testConnection_never_throws (st : ServerState) :
  let probe := GetWorkflows [("limit", "1")] in
  exists b,
    Client.testConnection ServerState serve st
      = (Done b, snd (serve probe st), [(probe, fst (serve probe st))]) /\
    (b = true <-> exists body, fst (serve probe st) = Success body).
Proof.
  cbv zeta. unfold Client.testConnection, request.
  destruct (serve (GetWorkflows [("limit", "1")]) st) as [[body|msg code] st'] eqn:E;
    simpl.
  - exists true. split; [reflexivity|]. split; eauto.
  - exists false. split; [reflexivity|]. split; [discriminate|].
    intros [body H]. discriminate.
Qed.

(** [X23] A call of [getOrCreateTag] that returns has listed the tags
    once and, when a tag of the name was listed, has returned the first such
    tag without any other request; otherwise it has asked for the tag to be
    created under that name and returned what the server made. *)
Theorem getOrCreateTag_requests
  (name : string) (st st' : ServerState) (tag : N8nTag) (log : list Exchange) :
  Client.getOrCreateTag ServerState serve name st = (Done tag, st', log) ->
  exists listing,
    (List.find (named name) listing = Some tag /\
     tag_name tag = name /\
     log = [(GetTags, Success (TagList listing))]) \/
    (List.find (named name) listing = None /\
     log = [(GetTags, Success (TagList listing)); (PostTag name, Success (Tag tag))]).
Proof.
  intros H. unfold Client.getOrCreateTag, listTags, createTag in H.
  unfold request, ret, throw, bind in H.
  destruct (serve GetTags st) as [[body|msg code] st1] eqn:E1;
    simpl in H; [|discriminate].
  destruct body; simpl in H; try discriminate.
  exists data. unfold named.
  destruct (List.find (fun t => String.eqb (tag_name t) name) data) as [t|] eqn:Ef;
    simpl in H.
  - left. injection H as <- <- <-. repeat split; auto.
    apply List.find_some in Ef as [_ Ef]. now apply String.eqb_eq in Ef.
  - right. destruct (serve (PostTag name) st1) as [[body|msg code] st2] eqn:E3;
      simpl in H; [|discriminate].
    destruct body; simpl in H; try discriminate.
    injection H as <- <- <-. auto.
Qed.
End Server.

Lemma getOrCreateTag_requests_witness :
  exists listing,
    List.find (named "managed-by:cron8n") listing = None /\
    snd (Client.getOrCreateTag (list Reply) scripted "managed-by:cron8n" taggingReplies)
    = [(GetTags, Success (TagList listing));
       (PostTag "managed-by:cron8n", Success (Tag (mockTag "10" "managed-by:cron8n")))].
Proof.
  destruct (getOrCreateTag_requests (list Reply) scripted "managed-by:cron8n"
              taggingReplies _ _ _ eq_refl) as (listing & [(Hf & _ & Hl)|(Hf & Hl)]).
  - discriminate Hl.
  - exists listing. split; [exact Hf|]. injection Hl as <-. reflexivity.
Defined.

Lemma dedupeFrom_seen seen ids :
  (forall x, In x ids -> In x seen) -> dedupeFrom seen ids = [].
Proof.
  induction ids as [|x r IH]; intros H; simpl; [reflexivity|].
  assert (List.existsb (String.eqb x) seen = true) as ->.
  { apply List.existsb_exists. exists x. split; [apply H; now left|apply String.eqb_refl]. }
  apply IH. intros y Hy. apply H. now right.
Qed.

Lemma dedupeFrom_stable existing :
  forall seen ids,
    NoDup existing ->
    (forall x, In x existing -> ~ In x seen) ->
    (forall x, In x ids -> In x existing \/ In x seen) ->
    dedupeFrom seen (existing ++ ids) = existing.
Proof.
  induction existing as [|x r IH]; intros seen ids Hnd Hfresh Hids; simpl.
  - apply dedupeFrom_seen. intros y Hy. destruct (Hids y Hy) as [[]|]; auto.
  - inversion Hnd as [|? ? Hx Hr]; subst.
    assert (List.existsb (String.eqb x) seen = false) as ->.
    { destruct (List.existsb (String.eqb x) seen) eqn:E; auto.
      apply List.existsb_exists in E as (y & Hy & Hxy). apply String.eqb_eq in Hxy.
      subst y. destruct (Hfresh x); auto. now left. }
    f_equal. apply IH; auto.
    + intros y Hy [<-|Hs]; [contradiction|]. apply (Hfresh y); auto. now right.
    + intros y Hy. destruct (Hids y Hy) as [[<-|]|]; simpl; auto.
Qed.

(** [X24] Tagging again changes nothing: when the workflow's tag ids are
    distinct and already hold every desired id, the list [addTagsToWorkflow]
    sets back is the workflow's own list, in its order. *)
Theorem dedupe_keeps_existing (existing ids : list string) :
  NoDup existing ->
  (forall id, In id ids -> In id existing) ->
  dedupe (existing ++ ids) = existing.
Proof.
  intros Hnd Hsub. apply dedupeFrom_stable; auto.
Qed.

Lemma dedupe_keeps_existing_witness :
  dedupe (["9"; "10"; "11"] ++ ["10"; "11"]) = ["9"; "10"; "11"].
Proof.
  apply (dedupe_keeps_existing ["9"; "10"; "11"] ["10"; "11"]).
  - repeat constructor; simpl; intuition discriminate.
  - simpl. intuition.
Defined.

End ClientMore.

(** ** The registry, by project *)

Module RegistryProjects.
Import Registry RegistryFacts.

Lemma count_member s p w l :
  In w l -> hasIdentity s p w = true -> 1 <= countIdentity s p l.
Proof.
  intros Hin Hw. apply List.in_split in Hin as (l1 & l2 & ->).
  rewrite countIdentity_app, countIdentity_cons, Hw. lia.
Qed.

Lemma unique_tail w l : uniqueIdentities (w :: l) -> uniqueIdentities l.
Proof.
  intros H s p. specialize (H s p). rewrite countIdentity_cons in H. lia.
Qed.

(** [X25] The entries [getEntriesByProject] returns all belong to the
    project, and in a registry with at most one entry per identity their
    slugs are pairwise distinct; after an upsert the entry written is among
    the entries of its project. *)
Theorem getEntriesByProject_slugs
  (file : RegistryFile) (projectPath' : string) (entry : NewEntry) (now : string) :
  uniqueIdentities (getAllEntries file) ->
  Forall (fun w => projectPath w = projectPath') (getEntriesByProject projectPath' file) /\
  NoDup (List.map slug (getEntriesByProject projectPath' file)) /\
  In (stamped entry now)
     (getEntriesByProject (new_projectPath entry) (upsertRegistryEntry entry now file)).
Proof.
  intros Hu. unfold getEntriesByProject. unfold getAllEntries in Hu.
  split; [|split].
  - apply List.Forall_forall. intros w Hw. apply List.filter_In in Hw as [_ Hw].
    now apply String.eqb_eq in Hw.
  - induction (workflows (loadRegistry file)) as [|w r IH]; simpl; [constructor|].
    pose proof (unique_tail _ _ Hu) as Hr.
    destruct (String.eqb_spec (projectPath w) projectPath') as [Hp|Hp]; [|auto].
    simpl. constructor; [|auto].
    intros Hin. apply List.in_map_iff in Hin as (w' & Hs & Hw').
    apply List.filter_In in Hw' as [Hw' Hp']. apply String.eqb_eq in Hp'.
    assert (H1 : hasIdentity (slug w) projectPath' w' = true).
    { unfold hasIdentity. rewrite Hs, Hp', !String.eqb_refl. reflexivity. }
    assert (H2 : hasIdentity (slug w) projectPath' w = true).
    { unfold hasIdentity. rewrite Hp, !String.eqb_refl. reflexivity. }
    pose proof (count_member _ _ _ _ Hw' H1) as Hc.
    specialize (Hu (slug w) projectPath'). rewrite countIdentity_cons, H2 in Hu. lia.
  - apply List.filter_In. split.
    + pose proof (upsert_get entry now file) as Hg. unfold getEntry in Hg.
      apply List.find_some in Hg as [Hg _]. exact Hg.
    + simpl. apply String.eqb_refl.
Qed.

Lemma getEntriesByProject_slugs_witness :
  NoDup (List.map slug (getEntriesByProject "/srv/a" sampleFile)) /\
  In (stamped (sampleNew "m2" (Some "42")) "2024-05-02T10:00:00.000Z")
     (getEntriesByProject "/srv/b"
        (upsertRegistryEntry (sampleNew "m2" (Some "42")) "2024-05-02T10:00:00.000Z"
           sampleFile)).
Proof.
  destruct (getEntriesByProject_slugs sampleFile "/srv/a" (sampleNew "m2" (Some "42"))
              "2024-05-02T10:00:00.000Z" sampleFile_unique) as (_ & Hn & Hi).
  split; [exact Hn|exact Hi].
Defined.

End RegistryProjects.

(** ** Cron expressions: the throwing variant *)

Module ValidateFacts.
Import Cron.

Section CronParser.
Variable Interval : Type.
Variable parseExpression : string -> string -> Z -> Interval + Raised.
Variable next : Interval -> (Z * Interval) + Raised.
Hypothesis parse_message :
  forall e tz now message,
    parseExpression e tz now = inr (RaisedError message) -> message <> "".
Hypothesis next_message :
  forall interval message,
    next interval = inr (RaisedError message) -> message <> "".

(** [X26] [validateCron] returns exactly when the package accepts the
    expression and yields five dates for it; otherwise it throws the
    [ValidationError] that names the expression and carries, as its hint,
    the non-empty text of what the package raised. *)
Theorem validateCron_throws (expression' : string) (timezone : option string) (now : Z) :
  let tz := match timezone with Some t => t | None => "Europe/Istanbul" end in
  let outcome := Cron.validateCron Interval parseExpression next expression' timezone now in
  (outcome = Ok tt <->
   exists interval runs,
     parseExpression expression' tz now = inl interval /\
     Cron.collect Interval next 5 interval [] = inl runs) /\
  (outcome = Ok tt \/
   exists hint,
     outcome = Throw (ValidationError ("Invalid cron expression: " ++ expression')
                                      (Some hint)) /\
     hint <> "").
Proof.
  cbv zeta. unfold Cron.validateCron, Cron.parseCron.
  set (tz := match timezone with Some t => t | None => "Europe/Istanbul" end).
  change (Z.to_nat 5) with 5.
  destruct (parseExpression expression' tz now) as [interval|e] eqn:Hp.
  - destruct (Cron.collect Interval next 5 interval []) as [runs|e] eqn:Hc; simpl.
    + split; [|now left]. split; eauto.
    + split.
      * split; [discriminate|]. intros (i & r & Hi & Hr). injection Hi as <-.
        change (Cron.collect Interval next 5 interval [] = inl r) in Hr. congruence.
      * right. exists (errorText e). split; [reflexivity|].
        apply (CronFacts.collect_raises Interval next next_message _ _ _ _ Hc).
  - simpl. split.
    + split; [discriminate|]. intros (i & r & Hi & _). discriminate.
    + right. exists (errorText e). split; [reflexivity|].
      destruct e as [message|]; simpl; [apply (parse_message _ _ _ _ Hp)|discriminate].
Qed.
End CronParser.

Lemma validateCron_throws_witness :
  Cron.validateCron Z CronFacts.minuteParse CronFacts.minuteNext "* * * * *" None
    1700000000000%Z = Ok tt /\
  exists hint,
    Cron.validateCron Z CronFacts.minuteParse CronFacts.minuteNext "60 * * * *" None
      1700000000000%Z
    = Throw (ValidationError "Invalid cron expression: 60 * * * *" (Some hint)) /\
    hint <> "".
Proof.
  split.
  - apply (validateCron_throws Z CronFacts.minuteParse CronFacts.minuteNext
             CronFacts.minuteParse_message CronFacts.minuteNext_message
             "* * * * *" None 1700000000000%Z).
    exists 1700000000000%Z. eexists. split; reflexivity.
  - destruct (validateCron_throws Z CronFacts.minuteParse CronFacts.minuteNext
                CronFacts.minuteParse_message CronFacts.minuteNext_message
                "60 * * * *" None 1700000000000%Z) as [_ [H|H]].
    + discriminate H.
    + exact H.
Defined.

End ValidateFacts.
